(** * A shallow embedding of the Cassandra native-protocol frame encoder

    The development follows the Go sources
    [cassandraprotocol/frame/encoder.go] (frame encoder) and the message
    codecs for AUTH_CHALLENGE, AUTH_RESPONSE, READY and EVENT.

    Conventions of the embedding:
    - a Go function returning [(T, error)] becomes a function into
      [result T]; a run-time panic (a failed single-value type assertion)
      is the third outcome [Panic];
    - an [io.Writer] backed by a buffer, and a destination slice threaded
      through the slice-based writers, is the list of bytes written so
      far: every writer appends;
    - an [io.Reader] or source slice is the list of bytes still unread;
    - [uint8] values (protocol version, opcode, header flags) are [Z]
      and are reduced modulo 256 when they reach the wire; Go [int]
      lengths are [Z]. *)

From Stdlib Require Import ZArith List Strings.String Strings.Ascii Strings.Byte Bool Lia.
From stdpp Require Import gmap strings fin_maps.
Import ListNotations.

Local Open Scope string_scope.
Local Open Scope list_scope.
Local Open Scope Z_scope.

(** ** Errors and results *)

(** The error kinds of the specification; [Wrap] is [fmt.Errorf] with
    the verb [%w]: a context message around a cause. *)
Inductive error : Type :=
| UnsupportedOpcode
| UnknownVariant
| VersionFeatureMismatch
| ShortRead
| InvalidEncoding
| CompressorError
| TypeMismatch
| Wrap (context : string) (cause : error).

Inductive result (A : Type) : Type :=
| Ok (a : A)
| Err (e : error)
| Panic.

Arguments Ok {A} a.
Arguments Err {A} e.
Arguments Panic {A}.

Definition bind {A B : Type} (r : result A) (k : A -> result B) : result B :=
  match r with
  | Ok a => k a
  | Err e => Err e
  | Panic => Panic
  end.

(** [if err != nil { return fmt.Errorf("ctx: %w", err) }] *)
Definition wrap {A : Type} (context : string) (r : result A) : result A :=
  match r with
  | Err e => Err (Wrap context e)
  | _ => r
  end.

Notation "'let*' x ':=' r 'in' k" := (bind r (fun x => k))
  (at level 10, x pattern, r at level 100, k at level 200).

(** [p != nil] for a pointer, map or slice held as an option. *)
Definition not_nil {A : Type} (o : option A) : bool :=
  match o with Some _ => true | None => false end.

Definition is_ok {A : Type} (r : result A) : bool :=
  match r with Ok _ => true | _ => false end.

(** ** Wire primitives *)

Module primitives.

Definition byte_of_Z (z : Z) : byte :=
  match Byte.of_N (Z.to_N (z mod 256)) with
  | Some b => b
  | None => x00
  end.

Definition Z_of_byte (b : byte) : Z := Z.of_N (Byte.to_N b).

(** The [n] low-order bytes of [z], most significant first. *)
Fixpoint be_bytes (n : nat) (z : Z) : list byte :=
  match n with
  | O => []
  | S k => byte_of_Z (Z.shiftr z (8 * Z.of_nat k)) :: be_bytes k z
  end.

Arguments be_bytes : simpl never.

Definition be_value (l : list byte) : Z :=
  fold_left (fun acc b => acc * 256 + Z_of_byte b) l 0.

Definition bytes_of_string (s : string) : list byte := list_byte_of_string s.

(** A 16-byte UUID, held as the 128-bit number its bytes spell. *)
Definition UUID : Type := Z.

(** [[]byte]: [None] is the nil slice. *)
Definition Bytes : Type := option (list byte).

Record Inet : Type := { Addr : list byte; Port : Z }.

Definition LengthOfUuid : Z := 16.

(** Modelled from the spec: the package [primitives] is not part of the
    sources covered here.  Section 4.1 gives every wire layout and length
    predictor; each writer appends to its destination.
    byte: 1 byte. *)
Definition WriteByte (b : Z) (dest : list byte) : result (list byte) :=
  Ok (dest ++ [byte_of_Z b]).

(** Modelled from the spec: short, 2 big-endian bytes, unsigned. *)
Definition WriteShort (n : Z) (dest : list byte) : result (list byte) :=
  Ok (dest ++ be_bytes 2 n).

(** Modelled from the spec: int, 4 big-endian bytes, signed (two's
    complement). *)
Definition WriteInt (n : Z) (dest : list byte) : result (list byte) :=
  Ok (dest ++ be_bytes 4 n).

(** Modelled from the spec: uuid, 16 bytes verbatim. *)
Definition WriteUuid (u : UUID) (dest : list byte) : result (list byte) :=
  Ok (dest ++ be_bytes 16 u).

(** Modelled from the spec: string, short [n] then [n] bytes. *)
Definition WriteString (s : string) (dest : list byte) : result (list byte) :=
  Ok (dest ++ be_bytes 2 (Z.of_nat (String.length s)) ++ bytes_of_string s).

Definition LengthOfString (s : string) : Z := 2 + Z.of_nat (String.length s).

(** Modelled from the spec: bytes, int [n] then [n] bytes; [n = -1]
    encodes the absent value. *)
Definition WriteBytes (b : Bytes) (dest : list byte) : result (list byte) :=
  match b with
  | None => Ok (dest ++ be_bytes 4 (-1))
  | Some l => Ok (dest ++ be_bytes 4 (Z.of_nat (length l)) ++ l)
  end.

Definition LengthOfBytes (b : Bytes) : Z :=
  match b with
  | None => 4
  | Some l => 4 + Z.of_nat (length l)
  end.

Definition string_bytes (s : string) : list byte :=
  be_bytes 2 (Z.of_nat (String.length s)) ++ bytes_of_string s.

(** Modelled from the spec: string-list, short [n] then [n] strings. *)
Definition WriteStringList (l : list string) (dest : list byte) : result (list byte) :=
  Ok (dest ++ be_bytes 2 (Z.of_nat (length l)) ++ concat (map string_bytes l)).

Definition LengthOfStringList (l : list string) : Z :=
  2 + fold_right (fun s acc => LengthOfString s + acc) 0 l.

Definition entry_bytes (kv : string * Bytes) : list byte :=
  string_bytes (fst kv) ++
  match snd kv with
  | None => be_bytes 4 (-1)
  | Some l => be_bytes 4 (Z.of_nat (length l)) ++ l
  end.

(** Modelled from the spec: bytes-map, short [n] then [n] entries, each a
    string and a bytes value.  Go leaves the iteration order of a map
    unspecified; the model writes the entries in the order of
    [map_to_list]. *)
Definition WriteBytesMap (m : gmap string Bytes) (dest : list byte) : result (list byte) :=
  Ok (dest ++ be_bytes 2 (Z.of_nat (size m)) ++ concat (map entry_bytes (map_to_list m))).

Definition LengthOfBytesMap (m : gmap string Bytes) : Z :=
  2 + fold_right (fun kv acc => LengthOfString (fst kv) + LengthOfBytes (snd kv) + acc)
        0 (map_to_list m).

Definition valid_inet_length (n : nat) : bool :=
  (Nat.eqb n 4 || Nat.eqb n 16)%bool.

(** Modelled from the spec: inet, a byte [a] in {4, 16}, [a] address
    bytes, then the port as an int. *)
Definition WriteInet (i : Inet) (dest : list byte) : result (list byte) :=
  if valid_inet_length (length (Addr i))
  then Ok (dest ++ [byte_of_Z (Z.of_nat (length (Addr i)))] ++ Addr i ++ be_bytes 4 (Port i))
  else Err InvalidEncoding.

Definition LengthOfInet (i : Inet) : result Z :=
  if valid_inet_length (length (Addr i))
  then Ok (1 + Z.of_nat (length (Addr i)) + 4)
  else Err InvalidEncoding.

(** Readers return the value read and the unread remainder. *)

(** Modelled from the spec: a reader fails with [ShortRead] when the
    buffer holds fewer bytes than the element needs. *)
Definition ReadByte (source : list byte) : result (Z * list byte) :=
  match source with
  | b :: rest => Ok (Z_of_byte b, rest)
  | [] => Err ShortRead
  end.

Definition ReadShort (source : list byte) : result (Z * list byte) :=
  match source with
  | b1 :: b0 :: rest => Ok (be_value [b1; b0], rest)
  | _ => Err ShortRead
  end.

Definition ReadInt (source : list byte) : result (Z * list byte) :=
  match source with
  | b3 :: b2 :: b1 :: b0 :: rest =>
      let u := be_value [b3; b2; b1; b0] in
      Ok (if u <? 2 ^ 31 then u else u - 2 ^ 32, rest)
  | _ => Err ShortRead
  end.

Definition take_bytes (n : nat) (source : list byte) : result (list byte * list byte) :=
  if (n <=? length source)%nat
  then Ok (firstn n source, skipn n source)
  else Err ShortRead.

Definition ReadString (source : list byte) : result (string * list byte) :=
  let* (n, rest) := ReadShort source in
  let* (bs, rest') := take_bytes (Z.to_nat n) rest in
  Ok (string_of_list_byte bs, rest').

Fixpoint read_strings (n : nat) (source : list byte) : result (list string * list byte) :=
  match n with
  | O => Ok ([], source)
  | S k =>
      let* (s, rest) := ReadString source in
      let* (l, rest') := read_strings k rest in
      Ok (s :: l, rest')
  end.

Definition ReadStringList (source : list byte) : result (list string * list byte) :=
  let* (n, rest) := ReadShort source in
  read_strings (Z.to_nat n) rest.

Definition ReadBytes (source : list byte) : result (Bytes * list byte) :=
  let* (n, rest) := ReadInt source in
  if n <? 0 then Ok (None, rest)
  else
    let* (bs, rest') := take_bytes (Z.to_nat n) rest in
    Ok (Some bs, rest').

(** Modelled from the spec: [InvalidEncoding] when the inet length byte
    is neither 4 nor 16. *)
Definition ReadInet (source : list byte) : result (Inet * list byte) :=
  let* (a, rest) := ReadByte source in
  if valid_inet_length (Z.to_nat a) then
    let* (addr, rest') := take_bytes (Z.to_nat a) rest in
    let* (port, rest'') := ReadInt rest' in
    Ok ({| Addr := addr; Port := port |}, rest'')
  else Err InvalidEncoding.

End primitives.

(** ** Protocol constants *)

Module cassandraprotocol.

(** Modelled from the spec: the constants of package [cassandraprotocol]
    are not part of the sources covered here.  Section 3 names the versions 3,
    4 and 5-beta. *)
Definition ProtocolVersion3 : Z := 3.
Definition ProtocolVersion4 : Z := 4.
Definition ProtocolVersionBeta : Z := 5.

(** Modelled from the spec: the glossary gives READY = 0x02 and
    EVENT = 0x0C, scenario 2 of section 8 gives AUTH_CHALLENGE = 0x0E; the
    other opcodes carry their value in the Cassandra native protocol. *)
Definition OpCodeStartup : Z := 0x01.
Definition OpCodeReady : Z := 0x02.
Definition OpCodeOptions : Z := 0x05.
Definition OpCodeEvent : Z := 0x0C.
Definition OpCodeAuthChallenge : Z := 0x0E.
Definition OpCodeAuthResponse : Z := 0x0F.

(** Modelled from the spec: flag bits of section 6. *)
Definition HeaderFlagCompressed : Z := 0x01.
Definition HeaderFlagTracing : Z := 0x02.
Definition HeaderFlagCustomPayload : Z := 0x04.
Definition HeaderFlagWarning : Z := 0x08.
Definition HeaderFlagUseBeta : Z := 0x10.

(** Modelled from the spec: event types and schema-change targets of
    section 4.2.1. *)
Definition EventTypeSchemaChange : string := "SCHEMA_CHANGE".
Definition EventTypeStatusChange : string := "STATUS_CHANGE".
Definition EventTypeTopologyChange : string := "TOPOLOGY_CHANGE".

Definition SchemaChangeTargetKeyspace : string := "KEYSPACE".
Definition SchemaChangeTargetTable : string := "TABLE".
Definition SchemaChangeTargetType : string := "TYPE".
Definition SchemaChangeTargetFunction : string := "FUNCTION".
Definition SchemaChangeTargetAggregate : string := "AGGREGATE".

End cassandraprotocol.

(** ** Messages and the codecs of package [message] *)

Module message.
Import primitives cassandraprotocol.

Record AuthChallenge : Type := { AuthChallenge_Token : Bytes }.

Record AuthResponse : Type := { AuthResponse_Token : Bytes }.

(** The struct types of the EVENT family are declared outside the sources
    covered here; their fields are the ones the event codec reads and writes.
    [Decode] builds them as [SchemaChangeEvent{Event: Event{Type: ...}}]:
    [Event] is a struct, embedded in each of the three variants. *)
Record Event : Type := { Type_ : string }.

Record SchemaChangeEvent : Type := {
  SchemaChangeEvent_Event : Event;
  SchemaChangeEvent_ChangeType : string;
  SchemaChangeEvent_Target : string;
  SchemaChangeEvent_Keyspace : string;
  SchemaChangeEvent_Object : string;
  SchemaChangeEvent_Arguments : list string
}.

Record StatusChangeEvent : Type := {
  StatusChangeEvent_Event : Event;
  StatusChangeEvent_ChangeType : string;
  StatusChangeEvent_Address : Inet
}.

Record TopologyChangeEvent : Type := {
  TopologyChangeEvent_Event : Event;
  TopologyChangeEvent_ChangeType : string;
  TopologyChangeEvent_Address : Inet
}.

(** A value of the interface [Message] is a pointer to one of the message
    structs; the constructor is its dynamic type.  Every pointer here is
    non-nil: the nil interface and a nil pointer of a message type, on
    which a field access panics, are outside the model.  [OtherMessage] stands
    for the message types declared outside the sources covered here (STARTUP,
    OPTIONS, QUERY, ...): such a message only answers [GetOpCode] and
    [IsResponse]. *)
Inductive Message : Type :=
| PtrAuthChallenge (m : AuthChallenge)
| PtrAuthResponse (m : AuthResponse)
| PtrReady
| PtrEvent (m : Event)
| PtrSchemaChangeEvent (m : SchemaChangeEvent)
| PtrStatusChangeEvent (m : StatusChangeEvent)
| PtrTopologyChangeEvent (m : TopologyChangeEvent)
| OtherMessage (opCode : Z) (isResponse : bool).

(** Modelled from the spec: the methods of [Event] are declared outside
    the sources covered here; section 4.2.1 makes EVENT a response with opcode
    EVENT, and the embedding structs inherit the methods. *)
Definition IsResponse (msg : Message) : bool :=
  match msg with
  | PtrAuthChallenge _ => true
  | PtrAuthResponse _ => false
  | PtrReady => false
  | PtrEvent _ | PtrSchemaChangeEvent _ | PtrStatusChangeEvent _
  | PtrTopologyChangeEvent _ => true
  | OtherMessage _ r => r
  end.

Definition GetOpCode (msg : Message) : Z :=
  match msg with
  | PtrAuthChallenge _ => OpCodeAuthChallenge
  | PtrAuthResponse _ => OpCodeAuthResponse
  | PtrReady => OpCodeReady
  | PtrEvent _ | PtrSchemaChangeEvent _ | PtrStatusChangeEvent _
  | PtrTopologyChangeEvent _ => OpCodeEvent
  | OtherMessage op _ => op
  end.

(** Type assertions to a pointer type.  The comma-ok form
    [x, ok := msg.(T)] is [as_T]: it yields [None] unless the dynamic type
    of [msg] is exactly [T].  The single-value form [x := msg.(T)] is
    [must (as_T msg)]: it panics in that case. *)
Definition as_AuthChallenge (msg : Message) : option AuthChallenge :=
  match msg with PtrAuthChallenge m => Some m | _ => None end.

Definition as_AuthResponse (msg : Message) : option AuthResponse :=
  match msg with PtrAuthResponse m => Some m | _ => None end.

Definition as_Event (msg : Message) : option Event :=
  match msg with PtrEvent m => Some m | _ => None end.

Definition as_SchemaChangeEvent (msg : Message) : option SchemaChangeEvent :=
  match msg with PtrSchemaChangeEvent m => Some m | _ => None end.

Definition as_StatusChangeEvent (msg : Message) : option StatusChangeEvent :=
  match msg with PtrStatusChangeEvent m => Some m | _ => None end.

Definition as_TopologyChangeEvent (msg : Message) : option TopologyChangeEvent :=
  match msg with PtrTopologyChangeEvent m => Some m | _ => None end.

Definition must {A : Type} (o : option A) : result A :=
  match o with Some a => Ok a | None => Panic end.

(** The interface [Encoder] the frame codec dispatches to. *)
Record Encoder : Type := {
  Encode : Message -> list byte -> Z -> result (list byte);
  EncodedLength : Message -> Z -> result Z
}.

(** *** AUTH_CHALLENGE *)

Definition AuthChallengeCodec_Encode (msg : Message) (dest : list byte) (_ : Z)
  : result (list byte) :=
  match as_AuthChallenge msg with
  | None => Err TypeMismatch
  | Some authChallenge => WriteBytes (AuthChallenge_Token authChallenge) dest
  end.

Definition AuthChallengeCodec_EncodedLength (msg : Message) (_ : Z) : result Z :=
  match as_AuthChallenge msg with
  | None => Err TypeMismatch
  | Some authChallenge => Ok (LengthOfBytes (AuthChallenge_Token authChallenge))
  end.

Definition AuthChallengeCodec_Decode (source : list byte) (_ : Z)
  : result (Message * list byte) :=
  let* (token, rest) := ReadBytes source in
  Ok (PtrAuthChallenge {| AuthChallenge_Token := token |}, rest).

Definition AuthChallengeCodec : Encoder :=
  {| Encode := AuthChallengeCodec_Encode;
     EncodedLength := AuthChallengeCodec_EncodedLength |}.

(** *** AUTH_RESPONSE: the assertions are of the single-value form *)

Definition AuthResponseCodec_Encode (msg : Message) (dest : list byte) (_ : Z)
  : result (list byte) :=
  let* authResponse := must (as_AuthResponse msg) in
  WriteBytes (AuthResponse_Token authResponse) dest.

Definition AuthResponseCodec_EncodedLength (msg : Message) (_ : Z) : result Z :=
  let* authResponse := must (as_AuthResponse msg) in
  Ok (LengthOfBytes (AuthResponse_Token authResponse)).

Definition AuthResponseCodec_Decode (source : list byte) (_ : Z)
  : result (Message * list byte) :=
  let* (token, rest) := ReadBytes source in
  Ok (PtrAuthResponse {| AuthResponse_Token := token |}, rest).

Definition AuthResponseCodec : Encoder :=
  {| Encode := AuthResponseCodec_Encode;
     EncodedLength := AuthResponseCodec_EncodedLength |}.

(** *** READY: every argument is ignored *)

Definition ReadyCodec_Encode (_ : Message) (dest : list byte) (_ : Z)
  : result (list byte) :=
  Ok dest.

Definition ReadyCodec_EncodedLength (_ : Message) (_ : Z) : result Z :=
  Ok 0.

Definition ReadyCodec_Decode (source : list byte) (_ : Z)
  : result (Message * list byte) :=
  Ok (PtrReady, source).

Definition ReadyCodec : Encoder :=
  {| Encode := ReadyCodec_Encode;
     EncodedLength := ReadyCodec_EncodedLength |}.

(** *** The opcode each codec answers for *)

Definition AuthChallengeCodec_GetOpCode : Z := OpCodeAuthChallenge.

Definition AuthResponseCodec_GetOpCode : Z := OpCodeAuthResponse.

Definition ReadyCodec_GetOpCode : Z := OpCodeReady.

End message.

(** ** The event codec of package [codec] *)

Module codec.
Import primitives cassandraprotocol message.

(** [switch sce.Target] shared shape: the Go cases TABLE and AGGREGATE
    fall through to TYPE and FUNCTION. *)
Definition is_object_target (target : string) : bool :=
  (String.eqb target SchemaChangeTargetTable
   || String.eqb target SchemaChangeTargetType)%bool.

Definition is_signature_target (target : string) : bool :=
  (String.eqb target SchemaChangeTargetAggregate
   || String.eqb target SchemaChangeTargetFunction)%bool.

Definition EventCodec_Encode (msg : Message) (dest : list byte) (version : Z)
  : result (list byte) :=
  let* event := must (as_Event msg) in
  let* dest := WriteString (Type_ event) dest in
  if String.eqb (Type_ event) EventTypeSchemaChange then
    match as_SchemaChangeEvent msg with
    | None => Err TypeMismatch
    | Some sce =>
        let* dest := wrap "cannot write SchemaChangeEvent.ChangeType"
                       (WriteString (SchemaChangeEvent_ChangeType sce) dest) in
        let* dest := wrap "cannot write SchemaChangeEvent.Target"
                       (WriteString (SchemaChangeEvent_Target sce) dest) in
        let* dest := wrap "cannot write SchemaChangeEvent.Keyspace"
                       (WriteString (SchemaChangeEvent_Keyspace sce) dest) in
        if String.eqb (SchemaChangeEvent_Target sce) SchemaChangeTargetKeyspace then
          Ok dest
        else if is_object_target (SchemaChangeEvent_Target sce) then
          wrap "cannot write SchemaChangeEvent.Object"
            (WriteString (SchemaChangeEvent_Object sce) dest)
        else if is_signature_target (SchemaChangeEvent_Target sce) then
          if version <? ProtocolVersion4 then Err VersionFeatureMismatch
          else
            let* dest := wrap "cannot write SchemaChangeEvent.Object"
                           (WriteString (SchemaChangeEvent_Object sce) dest) in
            wrap "cannot write SchemaChangeEvent.Arguments"
              (WriteStringList (SchemaChangeEvent_Arguments sce) dest)
        else Err UnknownVariant
    end
  else if String.eqb (Type_ event) EventTypeStatusChange then
    match as_StatusChangeEvent msg with
    | None => Err TypeMismatch
    | Some sce =>
        let* dest := wrap "cannot write StatusChangeEvent.ChangeType"
                       (WriteString (StatusChangeEvent_ChangeType sce) dest) in
        wrap "cannot write StatusChangeEvent.Address"
          (WriteInet (StatusChangeEvent_Address sce) dest)
    end
  else if String.eqb (Type_ event) EventTypeTopologyChange then
    match as_TopologyChangeEvent msg with
    | None => Err TypeMismatch
    | Some tce =>
        let* dest := wrap "cannot write TopologyChangeEvent.ChangeType"
                       (WriteString (TopologyChangeEvent_ChangeType tce) dest) in
        wrap "cannot write TopologyChangeEvent.Address"
          (WriteInet (TopologyChangeEvent_Address tce) dest)
    end
  else Err UnknownVariant.

Definition EventCodec_EncodedSize (msg : Message) (version : Z) : result Z :=
  let* event := must (as_Event msg) in
  let size := LengthOfString (Type_ event) in
  if String.eqb (Type_ event) EventTypeSchemaChange then
    match as_SchemaChangeEvent msg with
    | None => Err TypeMismatch
    | Some sce =>
        let size := size + LengthOfString (SchemaChangeEvent_ChangeType sce) in
        let size := size + LengthOfString (SchemaChangeEvent_Target sce) in
        let size := size + LengthOfString (SchemaChangeEvent_Keyspace sce) in
        if String.eqb (SchemaChangeEvent_Target sce) SchemaChangeTargetKeyspace then
          Ok size
        else if is_object_target (SchemaChangeEvent_Target sce) then
          Ok (size + LengthOfString (SchemaChangeEvent_Object sce))
        else if is_signature_target (SchemaChangeEvent_Target sce) then
          if version <? ProtocolVersion4 then Err VersionFeatureMismatch
          else
            let size := size + LengthOfString (SchemaChangeEvent_Object sce) in
            Ok (size + LengthOfStringList (SchemaChangeEvent_Arguments sce))
        else Err UnknownVariant
    end
  else if String.eqb (Type_ event) EventTypeStatusChange then
    match as_StatusChangeEvent msg with
    | None => Err TypeMismatch
    | Some sce =>
        let size := size + LengthOfString (StatusChangeEvent_ChangeType sce) in
        let* inetLength := wrap "cannot compute length of StatusChangeEvent.Address"
                             (LengthOfInet (StatusChangeEvent_Address sce)) in
        Ok (size + inetLength)
    end
  else if String.eqb (Type_ event) EventTypeTopologyChange then
    match as_TopologyChangeEvent msg with
    | None => Err TypeMismatch
    | Some tce =>
        let size := size + LengthOfString (TopologyChangeEvent_ChangeType tce) in
        let* inetLength := wrap "cannot compute length of TopologyChangeEvent.Address"
                             (LengthOfInet (TopologyChangeEvent_Address tce)) in
        Ok (size + inetLength)
    end
  else Err UnknownVariant.

(** [eventType, _, err := primitives.ReadString(source)]: the remainder
    after the event type is dropped, so the next read starts again at the
    first byte of [source]. *)
Definition EventCodec_Decode (source : list byte) (version : Z) : result Message :=
  let* (eventType, _) := ReadString source in
  let event := {| Type_ := eventType |} in
  if String.eqb eventType EventTypeSchemaChange then
    let* (changeType, source) := wrap "cannot read SchemaChangeEvent.ChangeType"
                                   (ReadString source) in
    let* (target, source) := wrap "cannot read SchemaChangeEvent.Target"
                               (ReadString source) in
    let* (keyspace, source) := wrap "cannot read SchemaChangeEvent.Keyspace"
                                 (ReadString source) in
    let sce object arguments :=
      PtrSchemaChangeEvent
        {| SchemaChangeEvent_Event := event;
           SchemaChangeEvent_ChangeType := changeType;
           SchemaChangeEvent_Target := target;
           SchemaChangeEvent_Keyspace := keyspace;
           SchemaChangeEvent_Object := object;
           SchemaChangeEvent_Arguments := arguments |} in
    if String.eqb target SchemaChangeTargetKeyspace then
      Ok (sce "" [])
    else if is_object_target target then
      let* (object, source) := wrap "cannot read SchemaChangeEvent.Object"
                                 (ReadString source) in
      Ok (sce object [])
    else if is_signature_target target then
      if version <? ProtocolVersion4 then Err VersionFeatureMismatch
      else
        let* (object, source) := wrap "cannot read SchemaChangeEvent.Object"
                                   (ReadString source) in
        let* (arguments, source) := wrap "cannot read SchemaChangeEvent.Arguments"
                                      (ReadStringList source) in
        Ok (sce object arguments)
    else Err UnknownVariant
  else if String.eqb eventType EventTypeStatusChange then
    let* (changeType, source) := wrap "cannot read StatusChangeEvent.ChangeType"
                                   (ReadString source) in
    let* (address, source) := wrap "cannot read StatusChangeEvent.Address"
                                (ReadInet source) in
    Ok (PtrStatusChangeEvent
          {| StatusChangeEvent_Event := event;
             StatusChangeEvent_ChangeType := changeType;
             StatusChangeEvent_Address := address |})
  else if String.eqb eventType EventTypeTopologyChange then
    let* (changeType, source) := wrap "cannot read TopologyChangeEvent.ChangeType"
                                   (ReadString source) in
    let* (address, source) := wrap "cannot read TopologyChangeEvent.Address"
                                (ReadInet source) in
    Ok (PtrTopologyChangeEvent
          {| TopologyChangeEvent_Event := event;
             TopologyChangeEvent_ChangeType := changeType;
             TopologyChangeEvent_Address := address |})
  else Err UnknownVariant.

End codec.

(** ** The frame encoder of package [frame] *)

Module frame.
Import primitives cassandraprotocol message.

(** The fields of [Header] and [Body] the encoder reads.  [TracingId] is
    a pointer, [CustomPayload] a map and [Warnings] a slice: [None] is
    nil. *)
Record Header : Type := {
  Version : Z;
  StreamId : Z;
  TracingRequested : bool
}.

Record Body : Type := {
  TracingId : option UUID;
  CustomPayload : option (gmap string Bytes);
  Warnings : option (list string);
  Message_ : Message
}.

Record Frame : Type := { Header_ : Header; Body_ : Body }.

(** [Compress] of the injected compressor. *)
Definition Compressor : Type := list byte -> result (list byte).

Record Codec : Type := {
  codecs : gmap Z Encoder;
  compressor : option Compressor
}.

Definition encodedHeaderLength : Z := 9.

Definition findEncoder (c : Codec) (frame : Frame) : result Encoder :=
  let opCode := GetOpCode (Message_ (Body_ frame)) in
  match codecs c !! opCode with
  | Some encoder => Ok encoder
  | None => Err UnsupportedOpcode
  end.

Definition shouldCompress (c : Codec) (frame : Frame) : bool :=
  let opCode := GetOpCode (Message_ (Body_ frame)) in
  (not_nil (compressor c)
   && negb (opCode =? OpCodeStartup)
   && negb (opCode =? OpCodeOptions))%bool.

Definition encodeFlags (c : Codec) (frame : Frame) : Z :=
  let flags := 0 in
  let flags := if shouldCompress c frame
               then Z.lor flags HeaderFlagCompressed else flags in
  let flags := if (not_nil (TracingId (Body_ frame))
                   || TracingRequested (Header_ frame))%bool
               then Z.lor flags HeaderFlagTracing else flags in
  let flags := if not_nil (CustomPayload (Body_ frame))
               then Z.lor flags HeaderFlagCustomPayload else flags in
  let flags := if not_nil (Warnings (Body_ frame))
               then Z.lor flags HeaderFlagWarning else flags in
  let flags := if Version (Header_ frame) =? ProtocolVersionBeta
               then Z.lor flags HeaderFlagUseBeta else flags in
  flags.

(** [uint16(frame.Header.StreamId)] and [int32(bodyLength)] keep the low
    16 and 32 bits; the writers emit exactly those. *)
Definition encodeHeader (c : Codec) (frame : Frame) (bodyLength : Z) (dest : list byte)
  : result (list byte) :=
  let versionAndDirection := Version (Header_ frame) in
  let versionAndDirection :=
    if IsResponse (Message_ (Body_ frame))
    then Z.lor versionAndDirection 128
    else versionAndDirection in
  let* dest := wrap "cannot encode header version and direction"
                 (WriteByte versionAndDirection dest) in
  let flags := encodeFlags c frame in
  let* dest := wrap "cannot encode header flags" (WriteByte flags dest) in
  let* dest := wrap "cannot encode header stream id"
                 (WriteShort (StreamId (Header_ frame) mod 2 ^ 16) dest) in
  let* dest := wrap "cannot encode header opcode"
                 (WriteByte (GetOpCode (Message_ (Body_ frame))) dest) in
  wrap "cannot encode header body length" (WriteInt bodyLength dest).

Definition uncompressedBodyLength (c : Codec) (frame : Frame) : result Z :=
  let* encoder := findEncoder c frame in
  let* length := wrap "cannot compute message length"
                   (EncodedLength encoder (Message_ (Body_ frame))
                      (Version (Header_ frame))) in
  let length := match TracingId (Body_ frame) with
                | Some _ => length + LengthOfUuid
                | None => length
                end in
  let length := match CustomPayload (Body_ frame) with
                | Some m => length + LengthOfBytesMap m
                | None => length
                end in
  let length := match Warnings (Body_ frame) with
                | Some w => length + LengthOfStringList w
                | None => length
                end in
  Ok length.

Definition encodeBodyUncompressed (c : Codec) (frame : Frame) (dest : list byte)
  : result (list byte) :=
  let* dest :=
    match TracingId (Body_ frame) with
    | Some u =>
        if IsResponse (Message_ (Body_ frame))
        then wrap "cannot encode body tracing id" (WriteUuid u dest)
        else Ok dest
    | None => Ok dest
    end in
  let* dest :=
    match CustomPayload (Body_ frame) with
    | Some m => wrap "cannot encode body custom payload" (WriteBytesMap m dest)
    | None => Ok dest
    end in
  let* dest :=
    match Warnings (Body_ frame) with
    | Some w => wrap "cannot encode body warnings" (WriteStringList w dest)
    | None => Ok dest
    end in
  let* encoder := findEncoder c frame in
  wrap "cannot encode body message"
    (Encode encoder (Message_ (Body_ frame)) dest (Version (Header_ frame))).

Definition encodeFrameUncompressed (c : Codec) (frame : Frame) : result (list byte) :=
  let* encodedBodyLength := wrap "cannot compute length of uncompressed message body"
                              (uncompressedBodyLength c frame) in
  let encodedFrame := [] in
  let* encodedFrame := wrap "cannot encode frame header"
                         (encodeHeader c frame encodedBodyLength encodedFrame) in
  wrap "cannot encode frame body" (encodeBodyUncompressed c frame encodedFrame).

Definition encodeFrameCompressed (c : Codec) (frame : Frame) : result (list byte) :=
  let* uncompressedBodyLength := wrap "cannot compute length of uncompressed message body"
                                   (uncompressedBodyLength c frame) in
  let* uncompressedBody := wrap "cannot encode frame body"
                             (encodeBodyUncompressed c frame []) in
  let* compressedBody :=
    match compressor c with
    | Some Compress => wrap "cannot compress frame body" (Compress uncompressedBody)
    | None => Panic
    end in
  let compressedBodyLength := Z.of_nat (length compressedBody) in
  let* encodedFrame := wrap "cannot encode frame header"
                         (encodeHeader c frame compressedBodyLength []) in
  Ok (encodedFrame ++ compressedBody).

Definition Encode (c : Codec) (frame : Frame) : result (list byte) :=
  let version := Version (Header_ frame) in
  if ((version <? ProtocolVersion4)
      && not_nil (CustomPayload (Body_ frame)))%bool
  then Err VersionFeatureMismatch
  else if ((version <? ProtocolVersion4)
           && not_nil (Warnings (Body_ frame)))%bool
  then Err VersionFeatureMismatch
  else if shouldCompress c frame
  then encodeFrameCompressed c frame
  else encodeFrameUncompressed c frame.

End frame.

(** ** Concrete codecs, frames and bodies used by the scenarios *)

Module scenarios.
Import primitives cassandraprotocol message codec frame.

(** A registry holding the three codecs of package [message]. *)
Definition registry : gmap Z Encoder :=
  <[OpCodeAuthChallenge := AuthChallengeCodec]>
    (<[OpCodeAuthResponse := AuthResponseCodec]>
       (<[OpCodeReady := ReadyCodec]> ∅)).

Definition plain_codec : Codec := {| codecs := registry; compressor := None |}.

(** A frame of version 4 with stream id 0 and no optional field. *)
Definition bare_frame (msg : Message) : Frame :=
  {| Header_ := {| Version := 4; StreamId := 0; TracingRequested := false |};
     Body_ := {| TracingId := None; CustomPayload := None; Warnings := None;
                 Message_ := msg |} |}.

Definition traced_frame (u : UUID) (msg : Message) : Frame :=
  {| Header_ := {| Version := 4; StreamId := 0; TracingRequested := false |};
     Body_ := {| TracingId := Some u; CustomPayload := None; Warnings := None;
                 Message_ := msg |} |}.

Definition ready_frame : Frame := bare_frame PtrReady.

Definition challenge : Message :=
  PtrAuthChallenge {| AuthChallenge_Token := Some [x01; x02; x03] |}.

Definition response : Message :=
  PtrAuthResponse {| AuthResponse_Token := Some [x01; x02; x03] |}.

Definition schema_change (changeType target keyspace object : string)
  (arguments : list string) : SchemaChangeEvent :=
  {| SchemaChangeEvent_Event := {| Type_ := EventTypeSchemaChange |};
     SchemaChangeEvent_ChangeType := changeType;
     SchemaChangeEvent_Target := target;
     SchemaChangeEvent_Keyspace := keyspace;
     SchemaChangeEvent_Object := object;
     SchemaChangeEvent_Arguments := arguments |}.

(** Scenario 3 of section 8: table [ks.t] created. *)
Definition table_created : SchemaChangeEvent :=
  schema_change "CREATED" "TABLE" "ks" "t" [].

(** Its body in the layout of section 4.2.1:
    [SCHEMA_CHANGE][CREATED][TABLE][ks][t]. *)
Definition table_created_body : list byte :=
  string_bytes "SCHEMA_CHANGE" ++ string_bytes "CREATED" ++ string_bytes "TABLE"
  ++ string_bytes "ks" ++ string_bytes "t".

(** A FUNCTION schema change whose change type is the string KEYSPACE
    (change types are not validated), and its body in the layout of
    section 4.2.1, the argument list being empty. *)
Definition function_changed : SchemaChangeEvent :=
  schema_change "KEYSPACE" "FUNCTION" "ks" "f" [].

Definition function_changed_body : list byte :=
  string_bytes "SCHEMA_CHANGE" ++ string_bytes "KEYSPACE" ++ string_bytes "FUNCTION"
  ++ string_bytes "ks" ++ string_bytes "f" ++ be_bytes 2 0.

(** A compressor that stores the body behind a one-byte marker, and the
    codec that uses it. *)
Definition storing_compressor : Compressor :=
  fun body => Ok (xff :: body).

Definition compressing_codec : Codec :=
  {| codecs := registry; compressor := Some storing_compressor |}.

(** A STARTUP request, whose struct is declared outside the sources
    covered here. *)
Definition startup : Message := OtherMessage OpCodeStartup false.

End scenarios.

(** ** Notions used by the statements *)

Import primitives cassandraprotocol message codec frame scenarios.

(** The tracing prefix the body carries according to its description:
    the 16 bytes of the uuid when the message is a response and the
    tracing id is present, nothing otherwise. *)
Definition tracing_prefix (frame : Frame) : list byte :=
  match TracingId (Body_ frame) with
  | Some u => if IsResponse (Message_ (Body_ frame)) then be_bytes 16 u else []
  | None => []
  end.

Definition without_tracing (frame : Frame) : Frame :=
  {| Header_ := Header_ frame;
     Body_ := {| TracingId := None;
                 CustomPayload := CustomPayload (Body_ frame);
                 Warnings := Warnings (Body_ frame);
                 Message_ := Message_ (Body_ frame) |} |}.

(** The number of bytes by which the computed body length exceeds the
    body: [uncompressedBodyLength] counts the uuid whenever the tracing id
    is present, [encodeBodyUncompressed] writes it on responses only. *)
Definition tracing_excess (frame : Frame) : Z :=
  if (negb (IsResponse (Message_ (Body_ frame)))
      && not_nil (TracingId (Body_ frame)))%bool
  then LengthOfUuid else 0.

(** The nine header bytes in wire order: version and direction, flags,
    stream id, opcode, body length. *)
Definition header_bytes (c : Codec) (frame : Frame) (bodyLength : Z) : list byte :=
  byte_of_Z (if IsResponse (Message_ (Body_ frame))
             then Z.lor (Version (Header_ frame)) 128
             else Version (Header_ frame))
  :: byte_of_Z (encodeFlags c frame)
  :: be_bytes 2 (StreamId (Header_ frame) mod 2 ^ 16)
  ++ byte_of_Z (GetOpCode (Message_ (Body_ frame)))
  :: be_bytes 4 bodyLength.

Definition payload_bytes (frame : Frame) : list byte :=
  match CustomPayload (Body_ frame) with
  | Some m => be_bytes 2 (Z.of_nat (size m)) ++ concat (map entry_bytes (map_to_list m))
  | None => []
  end.

Definition warnings_bytes (frame : Frame) : list byte :=
  match Warnings (Body_ frame) with
  | Some w => be_bytes 2 (Z.of_nat (length w)) ++ concat (map string_bytes w)
  | None => []
  end.

(** What precedes the message in the body. *)
Definition body_prefix (frame : Frame) : list byte :=
  tracing_prefix frame ++ payload_bytes frame ++ warnings_bytes frame.

(** An encoder that only adds to its destination, as every encoder
    handed an [io.Writer] does. *)
Definition appends (enc : message.Encoder) : Prop :=
  forall msg v dest dest',
    message.Encode enc msg dest v = Ok dest' ->
    exists body, dest' = dest ++ body.

(** A token whose length fits the signed 32-bit length field. *)
Definition token_fits (token : Bytes) : Prop :=
  match token with
  | Some l => Z.of_nat (length l) < 2 ^ 31
  | None => True
  end.

(** The length predictor fails exactly as the encoder does, and when
    the encoder succeeds it returns the number of bytes written. *)
Definition mirrors (enc : message.Encoder) : Prop :=
  forall msg dest v,
    match message.Encode enc msg dest v with
    | Ok dest' =>
        message.EncodedLength enc msg v
        = Ok (Z.of_nat (length dest') - Z.of_nat (length dest))
    | Err e => message.EncodedLength enc msg v = Err e
    | Panic => message.EncodedLength enc msg v = Panic
    end.

(** A decoder whose messages carry the opcode [opCode] and are accepted
    by the encoder [enc]. *)
Definition decodes_for (Decode : list byte -> Z -> result (Message * list byte))
  (enc : message.Encoder) (opCode : Z) : Prop :=
  forall source v m rest,
    Decode source v = Ok (m, rest) ->
    GetOpCode m = opCode
    /\ forall dest v', is_ok (message.Encode enc m dest v') = true.

(** An encoder whose length predictor counts the bytes it writes. *)
Definition length_agrees (enc : message.Encoder) : Prop :=
  forall msg v dest dest' n,
    message.Encode enc msg dest v = Ok dest' ->
    message.EncodedLength enc msg v = Ok n ->
    Z.of_nat (length dest') = Z.of_nat (length dest) + n.

(** * Properties *)

(** ** Results *)

Lemma Ok_inj {A : Type} (a b : A) : Ok a = Ok b -> a = b.
Proof. congruence. Qed.

Lemma wrap_Ok {A : Type} (context : string) (r : result A) (a : A) :
  wrap context r = Ok a -> r = Ok a.
Proof. destruct r; simpl; congruence. Qed.

(** ** Primitives *)

Lemma length_be_bytes (n : nat) (z : Z) : length (be_bytes n z) = n.
Proof.
  induction n as [|k IH]; simpl; [reflexivity | now rewrite IH].
Qed.

Lemma length_bytes_of_string (s : string) :
  length (bytes_of_string s) = String.length s.
Proof.
  unfold bytes_of_string, list_byte_of_string.
  induction s as [|a s IH]; simpl; [reflexivity | now rewrite IH].
Qed.

Lemma length_string_bytes (s : string) :
  Z.of_nat (length (string_bytes s)) = LengthOfString s.
Proof.
  unfold string_bytes, LengthOfString.
  rewrite length_app, length_be_bytes, length_bytes_of_string. lia.
Qed.

(** ** Frame header *)

Lemma Z_of_byte_of_Z (z : Z) : Z_of_byte (byte_of_Z z) = z mod 256.
Proof.
  unfold Z_of_byte, byte_of_Z.
  assert (Hb : 0 <= z mod 256 < 256) by (apply Z.mod_pos_bound; lia).
  destruct (Byte.of_N (Z.to_N (z mod 256))) as [b|] eqn:E.
  - apply Byte.to_of_N in E. rewrite E. apply Z2N.id. lia.
  - apply Byte.of_N_None_iff in E. lia.
Qed.

(** The nine bytes of the header, in order: version and direction, flags,
    stream id, opcode, body length. *)
Lemma encodeHeader_bytes (c : Codec) (frame : Frame) (bodyLength : Z) (dest : list byte) :
  encodeHeader c frame bodyLength dest
  = Ok (dest
        ++ byte_of_Z (if IsResponse (Message_ (Body_ frame))
                      then Z.lor (Version (Header_ frame)) 128
                      else Version (Header_ frame))
        :: byte_of_Z (encodeFlags c frame)
        :: be_bytes 2 (StreamId (Header_ frame) mod 2 ^ 16)
        ++ byte_of_Z (GetOpCode (Message_ (Body_ frame)))
        :: be_bytes 4 bodyLength).
Proof.
  unfold encodeHeader, WriteByte, WriteShort, WriteInt. cbn [bind wrap].
  rewrite <- !app_assoc. reflexivity.
Qed.

Lemma encodeHeader_length (c : Codec) (frame : Frame) (bodyLength : Z)
  (dest dest' : list byte) :
  encodeHeader c frame bodyLength dest = Ok dest' ->
  Z.of_nat (length dest') = Z.of_nat (length dest) + encodedHeaderLength.
Proof.
  rewrite encodeHeader_bytes. intros H%Ok_inj. subst dest'.
  rewrite length_app. cbn [length]. rewrite length_app. cbn [length].
  rewrite !length_be_bytes. unfold encodedHeaderLength. lia.
Qed.

(** Bit 7 of the first header byte is set when the message is a response,
    and otherwise repeats bit 7 of the version. *)
Lemma encodeHeader_direction_bit (c : Codec) (frame : Frame) (bodyLength : Z) :
  exists b0 rest,
    encodeHeader c frame bodyLength [] = Ok (b0 :: rest)
    /\ length rest = 8%nat
    /\ Z.testbit (Z_of_byte b0) 7
       = (IsResponse (Message_ (Body_ frame))
          || Z.testbit (Version (Header_ frame)) 7)%bool.
Proof.
  rewrite encodeHeader_bytes. rewrite app_nil_l.
  eexists _, _. split; [reflexivity|]. split.
  - cbn [length]. rewrite length_app. cbn [length]. rewrite !length_be_bytes.
    reflexivity.
  - rewrite Z_of_byte_of_Z.
    change 256 with (2 ^ 8). rewrite Z.mod_pow2_bits_low by lia.
    destruct (IsResponse (Message_ (Body_ frame))); [|reflexivity].
    rewrite Z.lor_spec. change (Z.testbit 128 7) with true.
    apply orb_true_r.
Qed.

(** X18: for a version below 128 the direction bit, bit 7 of the first
    header byte, is set exactly when [IsResponse] answers true. *)
Corollary encodeHeader_direction_bit_iff (c : Codec) (frame : Frame) (bodyLength : Z) :
  0 <= Version (Header_ frame) < 128 ->
  exists b0 rest,
    encodeHeader c frame bodyLength [] = Ok (b0 :: rest)
    /\ (Z.testbit (Z_of_byte b0) 7 = true
        <-> IsResponse (Message_ (Body_ frame)) = true).
Proof.
  intros Hv.
  destruct (encodeHeader_direction_bit c frame bodyLength) as (b0 & rest & He & _ & Hb).
  exists b0, rest. split; [exact He|]. rewrite Hb.
  assert (Hhi : Z.testbit (Version (Header_ frame)) 7 = false).
  { destruct (Z.eq_dec (Version (Header_ frame)) 0) as [->|Hnz]; [reflexivity|].
    apply Z.bits_above_log2; [lia|].
    apply Z.log2_lt_pow2; lia. }
  rewrite Hhi, orb_false_r. reflexivity.
Qed.

(** C3: encoding the READY frame of version 4, stream 0, without
    compressor yields 9 bytes whose first byte is 04, not 84:
    [Ready.IsResponse] answers false, so the direction bit stays clear. *)
Theorem ready_frame_has_request_direction :
  IsResponse PtrReady = false /\
  Encode plain_codec ready_frame
  = Ok [x04; x00; x00; x00; x02; x00; x00; x00; x00].
Proof.
  split; [reflexivity | vm_compute; reflexivity].
Qed.

(** C9: encoding AUTH_CHALLENGE with token 01 02 03 at version 4 without
    compressor yields the header 84 00 00 00 0E 00 00 00 07 followed by
    the body 00 00 00 03 01 02 03. *)
Theorem auth_challenge_frame_bytes :
  Encode plain_codec (bare_frame challenge)
  = Ok ([x84; x00; x00; x00; x0e; x00; x00; x00; x07]
        ++ [x00; x00; x00; x03; x01; x02; x03]).
Proof.
  vm_compute; reflexivity.
Qed.

(** C10: [ReadyCodec.Decode] returns a Ready message for every source and
    every version and leaves the source as it found it: nothing is read,
    and bytes that follow are neither consumed nor rejected. *)
Theorem ReadyCodec_Decode_ignores_source :
  forall (source : list byte) (version : Z),
    ReadyCodec_Decode source version = Ok (PtrReady, source).
Proof.
  intros source version. reflexivity.
Qed.

(** ** Header flags *)

Lemma shouldCompress_spec (c : Codec) (frame : Frame) :
  shouldCompress c frame
  = (not_nil (compressor c)
     && negb (GetOpCode (Message_ (Body_ frame)) =? OpCodeStartup)
     && negb (GetOpCode (Message_ (Body_ frame)) =? OpCodeOptions))%bool.
Proof. reflexivity. Qed.

(** The flags byte as a sum of independent bits. *)
Lemma encodeFlags_sum (c : Codec) (frame : Frame) :
  encodeFlags c frame
  = Z.b2z (shouldCompress c frame) * 1
    + Z.b2z (not_nil (TracingId (Body_ frame)) || TracingRequested (Header_ frame)) * 2
    + Z.b2z (not_nil (CustomPayload (Body_ frame))) * 4
    + Z.b2z (not_nil (Warnings (Body_ frame))) * 8
    + Z.b2z (Version (Header_ frame) =? ProtocolVersionBeta) * 16.
Proof.
  unfold encodeFlags.
  destruct (shouldCompress c frame);
    destruct (not_nil (TracingId (Body_ frame)) || TracingRequested (Header_ frame))%bool;
    destruct (not_nil (CustomPayload (Body_ frame)));
    destruct (not_nil (Warnings (Body_ frame)));
    destruct (Version (Header_ frame) =? ProtocolVersionBeta);
    reflexivity.
Qed.

(** C6: the flags byte is exactly the union of the five flags, each set
    under its own condition: compressed iff a compressor is present and
    the opcode is neither STARTUP nor OPTIONS, tracing iff the tracing id
    is present or tracing is requested, custom-payload iff the custom
    payload is present, warning iff warnings are present, use-beta iff the
    version is the beta version; the three high bits are clear. *)
Theorem encodeFlags_is_union_of_flags :
  forall (c : Codec) (frame : Frame),
    let opCode := GetOpCode (Message_ (Body_ frame)) in
    let compressed := (not_nil (compressor c)
                       && negb (opCode =? OpCodeStartup)
                       && negb (opCode =? OpCodeOptions))%bool in
    let tracing := (not_nil (TracingId (Body_ frame))
                    || TracingRequested (Header_ frame))%bool in
    let payload := not_nil (CustomPayload (Body_ frame)) in
    let warning := not_nil (Warnings (Body_ frame)) in
    let beta := Version (Header_ frame) =? ProtocolVersionBeta in
    encodeFlags c frame
    = Z.b2z compressed * HeaderFlagCompressed
      + Z.b2z tracing * HeaderFlagTracing
      + Z.b2z payload * HeaderFlagCustomPayload
      + Z.b2z warning * HeaderFlagWarning
      + Z.b2z beta * HeaderFlagUseBeta
    /\ Z.testbit (encodeFlags c frame) 0 = compressed
    /\ Z.testbit (encodeFlags c frame) 1 = tracing
    /\ Z.testbit (encodeFlags c frame) 2 = payload
    /\ Z.testbit (encodeFlags c frame) 3 = warning
    /\ Z.testbit (encodeFlags c frame) 4 = beta
    /\ Z.testbit (encodeFlags c frame) 5 = false
    /\ Z.testbit (encodeFlags c frame) 6 = false
    /\ Z.testbit (encodeFlags c frame) 7 = false.
Proof.
  intros c frame opCode compressed tracing payload warning beta.
  rewrite encodeFlags_sum, shouldCompress_spec.
  fold opCode compressed tracing payload warning beta.
  destruct compressed, tracing, payload, warning, beta;
    repeat split; reflexivity.
Qed.

(** ** Frame body *)

Lemma tracing_prefix_length (frame : Frame) :
  length (tracing_prefix frame)
  = if (IsResponse (Message_ (Body_ frame)) && not_nil (TracingId (Body_ frame)))%bool
    then 16%nat else 0%nat.
Proof.
  unfold tracing_prefix.
  destruct (TracingId (Body_ frame)) as [u|], (IsResponse (Message_ (Body_ frame)));
    simpl; try reflexivity.
Qed.

Lemma encodeBodyUncompressed_tracing (c : Codec) (frame : Frame) (dest : list byte) :
  encodeBodyUncompressed c frame dest
  = encodeBodyUncompressed c (without_tracing frame) (dest ++ tracing_prefix frame).
Proof.
  destruct frame as [h [t p w m]].
  unfold encodeBodyUncompressed, tracing_prefix, without_tracing, findEncoder.
  cbn [Body_ Header_ TracingId CustomPayload Warnings Message_].
  destruct t as [u|]; [destruct (IsResponse m)|];
    cbn [bind wrap WriteUuid]; rewrite ?app_nil_r; reflexivity.
Qed.

(** ** Length predictors *)

Lemma length_string_list_bytes (l : list string) :
  Z.of_nat (length (be_bytes 2 (Z.of_nat (length l)) ++ concat (map string_bytes l)))
  = LengthOfStringList l.
Proof.
  unfold LengthOfStringList. rewrite length_app, length_be_bytes.
  induction l as [|s l IH]; cbn [fold_right concat map].
  - reflexivity.
  - rewrite length_app.
    assert (Hs := length_string_bytes s). lia.
Qed.

Lemma length_entry_bytes (kv : string * Bytes) :
  Z.of_nat (length (entry_bytes kv))
  = LengthOfString (fst kv) + LengthOfBytes (snd kv).
Proof.
  unfold entry_bytes. rewrite length_app.
  assert (Hs := length_string_bytes (fst kv)).
  destruct (snd kv) as [l|]; simpl LengthOfBytes;
    rewrite ?length_app, !length_be_bytes; lia.
Qed.

Lemma length_bytes_map_bytes (m : gmap string Bytes) :
  Z.of_nat (length (be_bytes 2 (Z.of_nat (size m))
                    ++ concat (map entry_bytes (map_to_list m))))
  = LengthOfBytesMap m.
Proof.
  unfold LengthOfBytesMap. rewrite length_app, length_be_bytes.
  induction (map_to_list m) as [|kv l IH]; cbn [fold_right concat map].
  - reflexivity.
  - rewrite length_app.
    assert (Hkv := length_entry_bytes kv). lia.
Qed.

Lemma WriteBytes_length (b : Bytes) (dest dest' : list byte) :
  WriteBytes b dest = Ok dest' ->
  Z.of_nat (length dest') = Z.of_nat (length dest) + LengthOfBytes b.
Proof.
  destruct b as [l|]; cbn [WriteBytes LengthOfBytes]; intros H%Ok_inj; subst dest';
    rewrite ?length_app, !length_be_bytes; lia.
Qed.

Lemma AuthChallengeCodec_length_agrees : length_agrees AuthChallengeCodec.
Proof.
  intros msg v dest dest' n. simpl.
  unfold AuthChallengeCodec_Encode, AuthChallengeCodec_EncodedLength.
  destruct (as_AuthChallenge msg) as [a|]; [|discriminate].
  intros Hw Hn. injection Hn as <-. now apply WriteBytes_length.
Qed.

Lemma AuthResponseCodec_length_agrees : length_agrees AuthResponseCodec.
Proof.
  intros msg v dest dest' n. simpl.
  unfold AuthResponseCodec_Encode, AuthResponseCodec_EncodedLength.
  destruct (as_AuthResponse msg) as [a|]; simpl; [|discriminate].
  intros Hw Hn. injection Hn as <-. now apply WriteBytes_length.
Qed.

Lemma ReadyCodec_length_agrees : length_agrees ReadyCodec.
Proof.
  intros msg v dest dest' n. simpl.
  unfold ReadyCodec_Encode, ReadyCodec_EncodedLength.
  intros Hw Hn. injection Hw as <-. injection Hn as <-. lia.
Qed.

Section ExactEncoders.

Variable c : Codec.
Hypothesis registry_exact :
  forall opCode enc, codecs c !! opCode = Some enc -> length_agrees enc.

(** With encoders whose predictors are exact, the computed body length is
    the number of bytes written plus [tracing_excess]. *)
Lemma uncompressedBodyLength_vs_written (frame : Frame) (dest dest' : list byte) (n : Z) :
  uncompressedBodyLength c frame = Ok n ->
  encodeBodyUncompressed c frame dest = Ok dest' ->
  n = Z.of_nat (length dest') - Z.of_nat (length dest) + tracing_excess frame.
Proof.
  destruct frame as [h [t p w m]].
  unfold uncompressedBodyLength, encodeBodyUncompressed, findEncoder, tracing_excess.
  cbn [Body_ Header_ TracingId CustomPayload Warnings Message_].
  destruct (codecs c !! GetOpCode m) as [enc|] eqn:Henc;
    [|destruct t, (IsResponse m), p, w; discriminate].
  assert (Hreg := registry_exact _ _ Henc).
  cbn [bind].
  destruct (EncodedLength enc m (Version h)) as [k| |] eqn:Hk;
    cbn [bind wrap]; try discriminate.
  intros Hn%Ok_inj. subst n.
  assert (Hu : forall u, Z.of_nat (length (be_bytes 16 u)) = 16)
    by (intros u; now rewrite length_be_bytes).
  destruct t as [u|]; [destruct (IsResponse m)|];
    destruct p as [pm|]; destruct w as [wl|];
    cbn [bind wrap WriteUuid WriteBytesMap WriteStringList not_nil negb andb];
    intros He; apply wrap_Ok in He; apply (Hreg _ _ _ _ _ He) in Hk;
    rewrite ?length_app, ?Nat2Z.inj_add, ?Hu in Hk;
    try (assert (Hp := length_bytes_map_bytes pm);
         rewrite length_app, Nat2Z.inj_add in Hp);
    try (assert (Hw := length_string_list_bytes wl);
         rewrite length_app, Nat2Z.inj_add in Hw);
    rewrite ?andb_false_r; unfold LengthOfUuid; lia.
Qed.

(** On a response, and on any frame without tracing id, the computed
    length is the number of bytes written. *)
Corollary uncompressedBodyLength_exact (frame : Frame) (dest dest' : list byte) (n : Z) :
  IsResponse (Message_ (Body_ frame)) = true \/ TracingId (Body_ frame) = None ->
  uncompressedBodyLength c frame = Ok n ->
  encodeBodyUncompressed c frame dest = Ok dest' ->
  Z.of_nat (length dest') = Z.of_nat (length dest) + n.
Proof.
  intros Hcase Hn He.
  rewrite (uncompressedBodyLength_vs_written _ _ _ _ Hn He).
  unfold tracing_excess. destruct Hcase as [-> | ->]; simpl;
    rewrite ?andb_false_r; lia.
Qed.

(** On a request that carries a tracing id, the computed length is 16
    more than the number of bytes written. *)
Corollary uncompressedBodyLength_request_tracing
  (frame : Frame) (dest dest' : list byte) (n : Z) :
  IsResponse (Message_ (Body_ frame)) = false ->
  TracingId (Body_ frame) <> None ->
  uncompressedBodyLength c frame = Ok n ->
  encodeBodyUncompressed c frame dest = Ok dest' ->
  n = Z.of_nat (length dest') - Z.of_nat (length dest) + 16.
Proof.
  intros Hreq Hid Hn He.
  rewrite (uncompressedBodyLength_vs_written _ _ _ _ Hn He).
  unfold tracing_excess. rewrite Hreq.
  destruct (TracingId (Body_ frame)); [reflexivity | congruence].
Qed.

End ExactEncoders.

(** The three codecs of the registry have exact predictors. *)
Lemma registry_length_agrees (opCode : Z) (enc : Encoder) :
  registry !! opCode = Some enc -> length_agrees enc.
Proof.
  unfold registry. intros H.
  apply lookup_insert_Some in H as [[_ <-] | [_ H]];
    [exact AuthChallengeCodec_length_agrees|].
  apply lookup_insert_Some in H as [[_ <-] | [_ H]];
    [exact AuthResponseCodec_length_agrees|].
  apply lookup_insert_Some in H as [[_ <-] | [_ H]];
    [exact ReadyCodec_length_agrees|].
  rewrite lookup_empty in H. discriminate H.
Qed.

(** In particular for the codec of the scenarios. *)
Corollary plain_codec_body_length (frame : Frame) (dest dest' : list byte) (n : Z) :
  uncompressedBodyLength plain_codec frame = Ok n ->
  encodeBodyUncompressed plain_codec frame dest = Ok dest' ->
  n = Z.of_nat (length dest') - Z.of_nat (length dest) + tracing_excess frame.
Proof.
  apply uncompressedBodyLength_vs_written. exact registry_length_agrees.
Qed.

(** C2: for the AUTH_RESPONSE request of version 4 that carries a tracing
    id, the computed body length is 23 and the header announces 23 bytes
    (00 00 00 17), while the body writer produces the 7 bytes of the
    message: the whole frame is 9 + 7 bytes long. *)
Theorem body_length_counts_unwritten_tracing_id :
  uncompressedBodyLength plain_codec (traced_frame 1 scenarios.response) = Ok 23
  /\ encodeBodyUncompressed plain_codec (traced_frame 1 scenarios.response) []
     = Ok [x00; x00; x00; x03; x01; x02; x03]
  /\ Encode plain_codec (traced_frame 1 scenarios.response)
     = Ok ([x04; x02; x00; x00; x0f; x00; x00; x00; x17]
           ++ [x00; x00; x00; x03; x01; x02; x03]).
Proof.
  repeat split; vm_compute; reflexivity.
Qed.

(** ** Version gating in the frame encoder *)

Lemma Encode_rejects_custom_payload_below_v4 (c : Codec) (frame : Frame) :
  Version (Header_ frame) < ProtocolVersion4 ->
  CustomPayload (Body_ frame) <> None ->
  Encode c frame = Err VersionFeatureMismatch.
Proof.
  intros Hv Hp. unfold Encode.
  apply Z.ltb_lt in Hv. rewrite Hv.
  destruct (CustomPayload (Body_ frame)); [reflexivity | congruence].
Qed.

Lemma Encode_rejects_warnings_below_v4 (c : Codec) (frame : Frame) :
  Version (Header_ frame) < ProtocolVersion4 ->
  Warnings (Body_ frame) <> None ->
  Encode c frame = Err VersionFeatureMismatch.
Proof.
  intros Hv Hw. unfold Encode.
  apply Z.ltb_lt in Hv. rewrite Hv.
  destruct (Warnings (Body_ frame)); [|congruence].
  destruct (CustomPayload (Body_ frame)); reflexivity.
Qed.

(** ** The event codec *)


Lemma EventCodec_EncodedSize_needs_plain_Event (msg : Message) (v : Z) :
  as_Event msg = None -> EventCodec_EncodedSize msg v = Panic.
Proof.
  intros H. unfold EventCodec_EncodedSize. now rewrite H.
Qed.



(** The SCHEMA_CHANGE event of scenario 3 makes [Encode] panic at its
    first type assertion; [Decode], given the body that the wire layout
    prescribes for this event, reads the event type a second time as the
    change type and fails on the target it takes from the change type. *)
Lemma table_created_event_is_not_transported :
  EventCodec_Encode (PtrSchemaChangeEvent table_created) [] 3 = Panic
  /\ EventCodec_Decode table_created_body 3 = Err UnknownVariant.
Proof.
  split; vm_compute; reflexivity.
Qed.

(** C8: for every SCHEMA_CHANGE event, whatever its target and the
    version, [Encode] and [EncodedSize] panic before any field is written
    or counted; on an [Event] whose type is SCHEMA_CHANGE they report a
    type mismatch once the event type is written.  None of the target
    branches is ever reached. *)
Theorem schema_change_event_never_encoded :
  forall (sce : SchemaChangeEvent) (dest : list byte) (v : Z),
    EventCodec_Encode (PtrSchemaChangeEvent sce) dest v = Panic
    /\ EventCodec_EncodedSize (PtrSchemaChangeEvent sce) v = Panic
    /\ EventCodec_Encode (PtrEvent {| Type_ := EventTypeSchemaChange |}) dest v
       = Err TypeMismatch
    /\ EventCodec_EncodedSize (PtrEvent {| Type_ := EventTypeSchemaChange |}) v
       = Err TypeMismatch.
Proof.
  intros sce dest v. repeat split; reflexivity.
Qed.

(** C5: at version 3, [Decode] accepts the body of a FUNCTION schema
    change whose change type reads KEYSPACE: having read the event type
    twice, it takes KEYSPACE for the target and FUNCTION for the keyspace
    and returns a message.  [Encode], given the event itself at version 3,
    panics instead of returning an error. *)
Theorem function_schema_change_accepted_at_v3 :
  EventCodec_Decode function_changed_body 3
  = Ok (PtrSchemaChangeEvent
          (schema_change "SCHEMA_CHANGE" "KEYSPACE" "FUNCTION" "" []))
  /\ EventCodec_Encode (PtrSchemaChangeEvent function_changed) [] 3 = Panic.
Proof.
  split; vm_compute; reflexivity.
Qed.

(** ** Type mismatches *)

(** X10: given a message whose dynamic type is not that of an
    AuthResponse, [AuthResponseCodec.Encode] and
    [AuthResponseCodec.EncodedLength] panic at their unchecked type
    assertion; no error value is returned. *)
Lemma AuthResponseCodec_panics_on_mismatch (msg : Message) (dest : list byte) (v : Z) :
  as_AuthResponse msg = None ->
  AuthResponseCodec_Encode msg dest v = Panic
  /\ AuthResponseCodec_EncodedLength msg v = Panic.
Proof.
  intros H. unfold AuthResponseCodec_Encode, AuthResponseCodec_EncodedLength.
  now rewrite H.
Qed.

(** C4, as stated, fails: [ReadyCodec.Encode] does not report a message
    that is not a Ready; given an AUTH_CHALLENGE it succeeds. *)
Lemma ReadyCodec_accepts_any_message :
  ~ (forall (msg : Message) (dest : list byte) (v : Z),
        msg <> PtrReady -> exists e, message.Encode ReadyCodec msg dest v = Err e).
Proof.
  intros H.
  destruct (H challenge [] 4) as [e He]; [discriminate|].
  discriminate He.
Qed.

(** C4, amended: [AuthChallengeCodec.Encode] and
    [AuthChallengeCodec.EncodedLength] return the type-mismatch error for
    every message that is not an AuthChallenge, and
    [ReadyCodec.Encode] and [ReadyCodec.EncodedLength] accept every
    message, writing and counting nothing. *)
Theorem type_mismatch_reported_by_AuthChallengeCodec :
  forall (msg : Message) (dest : list byte) (v : Z),
    (as_AuthChallenge msg = None ->
     message.Encode AuthChallengeCodec msg dest v = Err TypeMismatch
     /\ message.EncodedLength AuthChallengeCodec msg v = Err TypeMismatch)
    /\ message.Encode ReadyCodec msg dest v = Ok dest
    /\ message.EncodedLength ReadyCodec msg v = Ok 0.
Proof.
  intros msg dest v. split; [|split; reflexivity].
  intros H. simpl.
  unfold AuthChallengeCodec_Encode, AuthChallengeCodec_EncodedLength.
  now rewrite H.
Qed.

(** A Ready message handed to the AUTH_CHALLENGE codec is reported. *)
Lemma type_mismatch_reported_by_AuthChallengeCodec_witness :
  as_AuthChallenge PtrReady = None
  /\ message.Encode AuthChallengeCodec PtrReady [] 4 = Err TypeMismatch
  /\ message.EncodedLength AuthChallengeCodec PtrReady 4 = Err TypeMismatch.
Proof.
  split; [reflexivity|].
  apply (type_mismatch_reported_by_AuthChallengeCodec PtrReady [] 4).
  reflexivity.
Defined.

(** * Further properties of the frame encoder *)

Lemma encodeHeader_header_bytes (c : Codec) (frame : Frame) (bodyLength : Z)
  (dest : list byte) :
  encodeHeader c frame bodyLength dest = Ok (dest ++ header_bytes c frame bodyLength).
Proof. apply encodeHeader_bytes. Qed.

Lemma length_header_bytes (c : Codec) (frame : Frame) (bodyLength : Z) :
  Z.of_nat (length (header_bytes c frame bodyLength)) = encodedHeaderLength.
Proof.
  unfold header_bytes. cbn [length]. rewrite length_app. cbn [length].
  rewrite !length_be_bytes. reflexivity.
Qed.

(** X1: below version 4 a frame that carries a custom payload or warnings
    is refused with an error, whatever the registry holds and whether or
    not a compressor is set. *)
Theorem Encode_gates_optional_fields_below_v4 :
  forall (c : Codec) (frame : Frame),
    Version (Header_ frame) < ProtocolVersion4 ->
    CustomPayload (Body_ frame) <> None \/ Warnings (Body_ frame) <> None ->
    Encode c frame = Err VersionFeatureMismatch.
Proof.
  intros c frame Hv [Hp | Hw].
  - now apply Encode_rejects_custom_payload_below_v4.
  - now apply Encode_rejects_warnings_below_v4.
Qed.

Lemma Encode_gates_optional_fields_below_v4_witness :
  Encode plain_codec
    {| Header_ := {| Version := 3; StreamId := 0; TracingRequested := false |};
       Body_ := {| TracingId := None; CustomPayload := None;
                   Warnings := Some ["slow"]; Message_ := challenge |} |}
  = Err VersionFeatureMismatch.
Proof.
  apply Encode_gates_optional_fields_below_v4.
  - cbn. unfold ProtocolVersion4. lia.
  - right. cbn. discriminate.
Defined.

Lemma uncompressedBodyLength_unsupported (c : Codec) (frame : Frame) :
  codecs c !! GetOpCode (Message_ (Body_ frame)) = None ->
  uncompressedBodyLength c frame = Err UnsupportedOpcode.
Proof.
  intros H. unfold uncompressedBodyLength, findEncoder. now rewrite H.
Qed.

(** X2: a frame whose opcode has no codec in the registry is never
    encoded: past the version gate, both the compressed and the
    uncompressed path stop at the length computation with the
    unsupported-opcode error, before the compressor is called. *)
Theorem Encode_unsupported_opcode :
  forall (c : Codec) (frame : Frame),
    codecs c !! GetOpCode (Message_ (Body_ frame)) = None ->
    Encode c frame = Err VersionFeatureMismatch
    \/ Encode c frame
       = Err (Wrap "cannot compute length of uncompressed message body"
                UnsupportedOpcode).
Proof.
  intros c frame H. unfold Encode.
  destruct (_ && _)%bool; [now left|].
  destruct (_ && _)%bool; [now left|].
  right.
  destruct (shouldCompress c frame);
    unfold encodeFrameCompressed, encodeFrameUncompressed;
    rewrite (uncompressedBodyLength_unsupported _ _ H); reflexivity.
Qed.

Lemma Encode_unsupported_opcode_witness :
  Encode compressing_codec (bare_frame (OtherMessage 7 false))
  = Err VersionFeatureMismatch
  \/ Encode compressing_codec (bare_frame (OtherMessage 7 false))
     = Err (Wrap "cannot compute length of uncompressed message body"
              UnsupportedOpcode).
Proof.
  apply Encode_unsupported_opcode. vm_compute. reflexivity.
Defined.

Lemma length_payload_bytes (frame : Frame) :
  Z.of_nat (length (payload_bytes frame))
  = match CustomPayload (Body_ frame) with
    | Some m => LengthOfBytesMap m
    | None => 0
    end.
Proof.
  unfold payload_bytes. destruct (CustomPayload (Body_ frame)) as [m|];
    [apply length_bytes_map_bytes | reflexivity].
Qed.

Lemma length_warnings_bytes (frame : Frame) :
  Z.of_nat (length (warnings_bytes frame))
  = match Warnings (Body_ frame) with
    | Some w => LengthOfStringList w
    | None => 0
    end.
Proof.
  unfold warnings_bytes. destruct (Warnings (Body_ frame)) as [w|];
    [apply length_string_list_bytes | reflexivity].
Qed.

Lemma encodeBodyUncompressed_prefix (c : Codec) (frame : Frame) (dest : list byte) :
  encodeBodyUncompressed c frame dest
  = (let* encoder := findEncoder c frame in
     wrap "cannot encode body message"
       (message.Encode encoder (Message_ (Body_ frame)) (dest ++ body_prefix frame)
          (Version (Header_ frame)))).
Proof.
  destruct frame as [h [t p w m]].
  unfold encodeBodyUncompressed, body_prefix, tracing_prefix, payload_bytes,
    warnings_bytes, WriteUuid, WriteBytesMap, WriteStringList.
  cbn [Body_ Header_ TracingId CustomPayload Warnings Message_].
  destruct t as [u|]; [destruct (IsResponse m)|];
    destruct p as [pm|]; destruct w as [wl|];
    cbn [bind wrap]; rewrite ?app_nil_r, ?app_nil_l, <- ?app_assoc; reflexivity.
Qed.

(** X3: the body is laid out in a fixed order: the tracing id, the custom
    payload, the warnings, then the message, and the part before the
    message has the length of the fields that are present. *)
Theorem body_fields_precede_message_in_order :
  forall (c : Codec) (frame : Frame) (dest : list byte),
    encodeBodyUncompressed c frame dest
    = (let* encoder := findEncoder c frame in
       wrap "cannot encode body message"
         (message.Encode encoder (Message_ (Body_ frame))
            (dest ++ tracing_prefix frame ++ payload_bytes frame ++ warnings_bytes frame)
            (Version (Header_ frame))))
    /\ Z.of_nat (length (tracing_prefix frame ++ payload_bytes frame
                         ++ warnings_bytes frame))
       = (if (IsResponse (Message_ (Body_ frame))
              && not_nil (TracingId (Body_ frame)))%bool then LengthOfUuid else 0)
         + match CustomPayload (Body_ frame) with
           | Some m => LengthOfBytesMap m
           | None => 0
           end
         + match Warnings (Body_ frame) with
           | Some w => LengthOfStringList w
           | None => 0
           end.
Proof.
  intros c frame dest. split; [apply encodeBodyUncompressed_prefix|].
  rewrite !length_app, !Nat2Z.inj_add.
  rewrite length_payload_bytes, length_warnings_bytes, tracing_prefix_length.
  destruct (_ && _)%bool; unfold LengthOfUuid; lia.
Qed.

Lemma AuthChallengeCodec_appends : appends AuthChallengeCodec.
Proof.
  intros msg v dest dest'. cbn [message.Encode AuthChallengeCodec].
  unfold AuthChallengeCodec_Encode, WriteBytes.
  destruct (as_AuthChallenge msg) as [[[l|]]|]; intros H; try discriminate H;
    apply Ok_inj in H; subst dest'; eexists; reflexivity.
Qed.

Lemma AuthResponseCodec_appends : appends AuthResponseCodec.
Proof.
  intros msg v dest dest'. cbn [message.Encode AuthResponseCodec].
  unfold AuthResponseCodec_Encode, WriteBytes.
  destruct (as_AuthResponse msg) as [[[l|]]|]; cbn [must bind AuthResponse_Token];
    intros H; try discriminate H;
    apply Ok_inj in H; subst dest'; eexists; reflexivity.
Qed.

Lemma ReadyCodec_appends : appends ReadyCodec.
Proof.
  intros msg v dest dest'. cbn [message.Encode ReadyCodec].
  unfold ReadyCodec_Encode. intros H%Ok_inj. subst dest'.
  exists []. now rewrite app_nil_r.
Qed.

Lemma registry_well_behaved (opCode : Z) (enc : Encoder) :
  registry !! opCode = Some enc -> length_agrees enc /\ appends enc.
Proof.
  unfold registry. intros H.
  apply lookup_insert_Some in H as [[_ <-] | [_ H]];
    [split; [exact AuthChallengeCodec_length_agrees | exact AuthChallengeCodec_appends]|].
  apply lookup_insert_Some in H as [[_ <-] | [_ H]];
    [split; [exact AuthResponseCodec_length_agrees | exact AuthResponseCodec_appends]|].
  apply lookup_insert_Some in H as [[_ <-] | [_ H]];
    [split; [exact ReadyCodec_length_agrees | exact ReadyCodec_appends]|].
  rewrite lookup_empty in H. discriminate H.
Qed.

(** X4: on the uncompressed path, with encoders that only append and
    whose predictors are exact, a frame that is a response or carries no
    tracing id is encoded as nine header bytes followed by the body, and
    the body length announced in the header is the length of that body. *)
Theorem uncompressed_frame_layout :
  forall (c : Codec) (frame : Frame) (out : list byte),
    (forall opCode enc,
        codecs c !! opCode = Some enc -> length_agrees enc /\ appends enc) ->
    shouldCompress c frame = false ->
    IsResponse (Message_ (Body_ frame)) = true \/ TracingId (Body_ frame) = None ->
    Encode c frame = Ok out ->
    exists n body,
      uncompressedBodyLength c frame = Ok n
      /\ out = header_bytes c frame n ++ body
      /\ Z.of_nat (length body) = n.
Proof.
  intros c frame out Hreg Hsc Hcase. unfold Encode.
  destruct (_ && _)%bool; [discriminate|].
  destruct (_ && _)%bool; [discriminate|].
  rewrite Hsc. unfold encodeFrameUncompressed.
  destruct (uncompressedBodyLength c frame) as [n| |] eqn:Hn;
    cbn [bind wrap]; try discriminate.
  rewrite encodeHeader_header_bytes. cbn [bind wrap]. rewrite app_nil_l.
  intros He%wrap_Ok.
  assert (Hlen := uncompressedBodyLength_vs_written c
                    (fun op enc H => proj1 (Hreg op enc H)) frame _ _ _ Hn He).
  assert (Hex : tracing_excess frame = 0).
  { unfold tracing_excess. destruct Hcase as [-> | ->]; cbn [negb andb not_nil];
      rewrite ?andb_false_r; reflexivity. }
  rewrite Hex, length_header_bytes in Hlen.
  rewrite encodeBodyUncompressed_prefix in He. unfold findEncoder in He.
  destruct (codecs c !! GetOpCode (Message_ (Body_ frame))) as [enc|] eqn:Henc;
    cbn [bind] in He; [|discriminate He].
  apply wrap_Ok in He.
  destruct (proj2 (Hreg _ _ Henc) _ _ _ _ He) as [body' ->].
  exists n, (body_prefix frame ++ body'). split; [reflexivity|]. split.
  - now rewrite <- app_assoc.
  - rewrite !length_app, !Nat2Z.inj_add in Hlen.
    rewrite length_header_bytes in Hlen.
    rewrite length_app, Nat2Z.inj_add. lia.
Qed.

Lemma uncompressed_frame_layout_witness :
  exists n body,
    uncompressedBodyLength plain_codec (traced_frame 1 challenge) = Ok n
    /\ [x84; x02; x00; x00; x0e; x00; x00; x00; x17; x00; x00; x00; x00; x00;
        x00; x00; x00; x00; x00; x00; x00; x00; x00; x00; x01; x00; x00; x00;
        x03; x01; x02; x03]
       = header_bytes plain_codec (traced_frame 1 challenge) n ++ body
    /\ Z.of_nat (length body) = n.
Proof.
  apply (uncompressed_frame_layout plain_codec (traced_frame 1 challenge)).
  - exact registry_well_behaved.
  - reflexivity.
  - left. reflexivity.
  - vm_compute. reflexivity.
Defined.

Lemma encodeFlags_compressed_bit (c : Codec) (frame : Frame) :
  Z.testbit (encodeFlags c frame) 0 = shouldCompress c frame.
Proof.
  rewrite encodeFlags_sum.
  destruct (shouldCompress c frame);
    destruct (not_nil (TracingId (Body_ frame)) || TracingRequested (Header_ frame))%bool;
    destruct (not_nil (CustomPayload (Body_ frame)));
    destruct (not_nil (Warnings (Body_ frame)));
    destruct (Version (Header_ frame) =? ProtocolVersionBeta);
    reflexivity.
Qed.

(** X5: on the compressed path the frame is the nine header bytes
    followed by what the compressor made of the whole body; the header
    announces the length of the compressed bytes and has the compressed
    flag set.  No assumption on the encoders is needed. *)
Theorem compressed_frame_layout :
  forall (c : Codec) (frame : Frame) (out : list byte),
    shouldCompress c frame = true ->
    Encode c frame = Ok out ->
    exists Compress body compressedBody,
      compressor c = Some Compress
      /\ encodeBodyUncompressed c frame [] = Ok body
      /\ Compress body = Ok compressedBody
      /\ out = header_bytes c frame (Z.of_nat (length compressedBody)) ++ compressedBody
      /\ Z.of_nat (length out)
         = encodedHeaderLength + Z.of_nat (length compressedBody)
      /\ Z.testbit (encodeFlags c frame) 0 = true.
Proof.
  intros c frame out Hsc. unfold Encode.
  destruct (_ && _)%bool; [discriminate|].
  destruct (_ && _)%bool; [discriminate|].
  rewrite Hsc. unfold encodeFrameCompressed.
  destruct (uncompressedBodyLength c frame) as [n| |];
    cbn [bind wrap]; try discriminate.
  destruct (encodeBodyUncompressed c frame []) as [body| |];
    cbn [bind wrap]; try discriminate.
  destruct (compressor c) as [Compress|]; cbn [bind wrap]; [|discriminate].
  destruct (Compress body) as [compressedBody| |] eqn:Hc;
    cbn [bind wrap]; try discriminate.
  rewrite encodeHeader_header_bytes. cbn [bind wrap]. rewrite app_nil_l.
  intros H%Ok_inj. subst out.
  exists Compress, body, compressedBody.
  repeat split; trivial.
  - rewrite length_app, Nat2Z.inj_add, length_header_bytes. reflexivity.
  - now rewrite encodeFlags_compressed_bit.
Qed.

Lemma compressed_frame_layout_witness :
  exists Compress body compressedBody,
    compressor compressing_codec = Some Compress
    /\ encodeBodyUncompressed compressing_codec (bare_frame challenge) [] = Ok body
    /\ Compress body = Ok compressedBody
    /\ [x84; x01; x00; x00; x0e; x00; x00; x00; x08;
        xff; x00; x00; x00; x03; x01; x02; x03]
       = header_bytes compressing_codec (bare_frame challenge)
           (Z.of_nat (length compressedBody)) ++ compressedBody
    /\ Z.of_nat (length [x84; x01; x00; x00; x0e; x00; x00; x00; x08;
                         xff; x00; x00; x00; x03; x01; x02; x03])
       = encodedHeaderLength + Z.of_nat (length compressedBody)
    /\ Z.testbit (encodeFlags compressing_codec (bare_frame challenge)) 0 = true.
Proof.
  apply (compressed_frame_layout compressing_codec (bare_frame challenge)).
  - reflexivity.
  - vm_compute. reflexivity.
Defined.

Lemma encodeFrameUncompressed_same_registry (c1 c2 : Codec) (frame : Frame) :
  codecs c1 = codecs c2 ->
  shouldCompress c1 frame = shouldCompress c2 frame ->
  encodeFrameUncompressed c1 frame = encodeFrameUncompressed c2 frame.
Proof.
  intros Hreg Hsc.
  unfold encodeFrameUncompressed, uncompressedBodyLength, encodeBodyUncompressed,
    encodeHeader, encodeFlags, findEncoder.
  now rewrite Hreg, Hsc.
Qed.

(** X6: STARTUP and OPTIONS frames are never compressed: with the same
    registry, the encoder gives the same result whether or not a
    compressor is set, and the compressed flag is clear. *)
Theorem startup_and_options_bypass_compressor :
  forall (reg : gmap Z Encoder) (Compress : Compressor) (frame : Frame),
    GetOpCode (Message_ (Body_ frame)) = OpCodeStartup
    \/ GetOpCode (Message_ (Body_ frame)) = OpCodeOptions ->
    Encode {| codecs := reg; compressor := Some Compress |} frame
    = Encode {| codecs := reg; compressor := None |} frame
    /\ Z.testbit
         (encodeFlags {| codecs := reg; compressor := Some Compress |} frame) 0
       = false.
Proof.
  intros reg Compress frame Hop.
  assert (Hsc : shouldCompress {| codecs := reg; compressor := Some Compress |} frame
                = false).
  { unfold shouldCompress. cbn [compressor not_nil andb].
    destruct Hop as [-> | ->]; reflexivity. }
  split; [|now rewrite encodeFlags_compressed_bit].
  unfold Encode. rewrite Hsc.
  change (shouldCompress {| codecs := reg; compressor := None |} frame) with false.
  destruct (_ && _)%bool; [reflexivity|].
  destruct (_ && _)%bool; [reflexivity|].
  apply encodeFrameUncompressed_same_registry; [reflexivity|].
  now rewrite Hsc.
Qed.

Lemma startup_and_options_bypass_compressor_witness :
  Encode {| codecs := <[OpCodeStartup := ReadyCodec]> registry;
            compressor := Some storing_compressor |} (bare_frame startup)
  = Encode {| codecs := <[OpCodeStartup := ReadyCodec]> registry;
              compressor := None |} (bare_frame startup)
  /\ Z.testbit
       (encodeFlags {| codecs := <[OpCodeStartup := ReadyCodec]> registry;
                       compressor := Some storing_compressor |} (bare_frame startup)) 0
     = false.
Proof.
  apply startup_and_options_bypass_compressor.
  left. reflexivity.
Defined.

(** * Further properties of the message codecs *)

Lemma fold_be_bytes (k : nat) (n acc : Z) :
  fold_left (fun acc b => acc * 256 + Z_of_byte b) (be_bytes k n) acc
  = acc * 2 ^ (8 * Z.of_nat k) + n mod 2 ^ (8 * Z.of_nat k).
Proof.
  revert acc. induction k as [|k IH]; intros acc.
  - change (be_bytes 0 n) with (@nil byte). cbn [fold_left].
    change (2 ^ (8 * Z.of_nat 0)) with 1. rewrite Z.mod_1_r. lia.
  - change (be_bytes (S k) n)
      with (byte_of_Z (Z.shiftr n (8 * Z.of_nat k)) :: be_bytes k n).
    cbn [fold_left]. rewrite IH, Z_of_byte_of_Z, Z.shiftr_div_pow2 by lia.
    replace (8 * Z.of_nat (S k)) with (8 * Z.of_nat k + 8) by lia.
    rewrite Z.pow_add_r by lia. change (2 ^ 8) with 256.
    rewrite (Z.rem_mul_r n (2 ^ (8 * Z.of_nat k)) 256) by lia.
    ring.
Qed.

Lemma be_value_be_bytes (k : nat) (n : Z) :
  be_value (be_bytes k n) = n mod 2 ^ (8 * Z.of_nat k).
Proof.
  unfold be_value. rewrite fold_be_bytes. lia.
Qed.

(** A signed 32-bit number written by the int writer is read back. *)
Lemma ReadInt_be_bytes (n : Z) (rest : list byte) :
  - 2 ^ 31 <= n < 2 ^ 31 ->
  ReadInt (be_bytes 4 n ++ rest) = Ok (n, rest).
Proof.
  intros Hn.
  change (be_bytes 4 n ++ rest)
    with (byte_of_Z (Z.shiftr n (8 * Z.of_nat 3))
          :: byte_of_Z (Z.shiftr n (8 * Z.of_nat 2))
          :: byte_of_Z (Z.shiftr n (8 * Z.of_nat 1))
          :: byte_of_Z (Z.shiftr n (8 * Z.of_nat 0)) :: rest).
  cbn [ReadInt].
  change [byte_of_Z (Z.shiftr n (8 * Z.of_nat 3));
          byte_of_Z (Z.shiftr n (8 * Z.of_nat 2));
          byte_of_Z (Z.shiftr n (8 * Z.of_nat 1));
          byte_of_Z (Z.shiftr n (8 * Z.of_nat 0))] with (be_bytes 4 n).
  rewrite be_value_be_bytes. change (2 ^ (8 * Z.of_nat 4)) with (2 ^ 32).
  f_equal. f_equal.
  destruct (Z_lt_le_dec n 0) as [Hneg | Hpos].
  - rewrite <- (Z.mod_unique n (2 ^ 32) (-1) (n + 2 ^ 32)) by lia.
    destruct (Z.ltb_spec (n + 2 ^ 32) (2 ^ 31)); lia.
  - rewrite Z.mod_small by lia.
    destruct (Z.ltb_spec n (2 ^ 31)); lia.
Qed.

Lemma take_bytes_app (l rest : list byte) :
  take_bytes (length l) (l ++ rest) = Ok (l, rest).
Proof.
  unfold take_bytes.
  assert (Hle : (length l <=? length (l ++ rest))%nat = true)
    by (apply Nat.leb_le; rewrite length_app; lia).
  rewrite Hle. clear Hle. f_equal. f_equal.
  - induction l as [|b l IH]; [reflexivity | cbn; now rewrite IH].
  - induction l as [|b l IH]; [reflexivity | exact IH].
Qed.

(** What the bytes writer puts on the wire is read back by the bytes
    reader, nil and empty tokens included, as long as the length fits. *)
Lemma ReadBytes_WriteBytes (token : Bytes) (written rest : list byte) :
  token_fits token ->
  WriteBytes token [] = Ok written ->
  ReadBytes (written ++ rest) = Ok (token, rest).
Proof.
  intros Hfit Hw. unfold ReadBytes. destruct token as [l|]; cbn [WriteBytes] in Hw;
    apply Ok_inj in Hw; subst written; rewrite app_nil_l, <- ?app_assoc.
  - cbn [token_fits] in Hfit.
    rewrite ReadInt_be_bytes by lia. cbn [bind].
    destruct (Z.ltb_spec (Z.of_nat (length l)) 0) as [Hneg|_]; [lia|].
    rewrite Nat2Z.id, take_bytes_app. reflexivity.
  - rewrite ReadInt_be_bytes by lia. reflexivity.
Qed.

(** X7: an AUTH_CHALLENGE whose token fits a 32-bit length survives the
    round trip: what [Encode] writes, [Decode] reads back as the same
    message, a nil token staying nil and an empty one empty, and leaves
    the bytes that follow unread. *)
Theorem AuthChallengeCodec_round_trip :
  forall (m : AuthChallenge) (v v' : Z) (rest : list byte),
    token_fits (AuthChallenge_Token m) ->
    exists body,
      AuthChallengeCodec_Encode (PtrAuthChallenge m) [] v = Ok body
      /\ AuthChallengeCodec_Decode (body ++ rest) v' = Ok (PtrAuthChallenge m, rest).
Proof.
  intros [token] v v' rest Hfit. cbn [AuthChallenge_Token] in Hfit.
  unfold AuthChallengeCodec_Encode, AuthChallengeCodec_Decode.
  cbn [as_AuthChallenge AuthChallenge_Token].
  destruct (WriteBytes token []) as [body| |] eqn:Hw;
    try (destruct token; discriminate Hw).
  exists body. split; [reflexivity|].
  now rewrite (ReadBytes_WriteBytes token body rest Hfit Hw).
Qed.

Lemma AuthChallengeCodec_round_trip_witness :
  exists body,
    AuthChallengeCodec_Encode
      (PtrAuthChallenge {| AuthChallenge_Token := Some [] |}) [] 4 = Ok body
    /\ AuthChallengeCodec_Decode (body ++ [x2a]) 4
       = Ok (PtrAuthChallenge {| AuthChallenge_Token := Some [] |}, [x2a]).
Proof.
  apply AuthChallengeCodec_round_trip. cbn. lia.
Defined.

(** X8: the same round trip for AUTH_RESPONSE. *)
Theorem AuthResponseCodec_round_trip :
  forall (m : AuthResponse) (v v' : Z) (rest : list byte),
    token_fits (AuthResponse_Token m) ->
    exists body,
      AuthResponseCodec_Encode (PtrAuthResponse m) [] v = Ok body
      /\ AuthResponseCodec_Decode (body ++ rest) v' = Ok (PtrAuthResponse m, rest).
Proof.
  intros [token] v v' rest Hfit. cbn [AuthResponse_Token] in Hfit.
  unfold AuthResponseCodec_Encode, AuthResponseCodec_Decode.
  cbn [as_AuthResponse must bind AuthResponse_Token].
  destruct (WriteBytes token []) as [body| |] eqn:Hw;
    try (destruct token; discriminate Hw).
  exists body. split; [reflexivity|].
  now rewrite (ReadBytes_WriteBytes token body rest Hfit Hw).
Qed.

Lemma AuthResponseCodec_round_trip_witness :
  exists body,
    AuthResponseCodec_Encode
      (PtrAuthResponse {| AuthResponse_Token := None |}) [] 4 = Ok body
    /\ AuthResponseCodec_Decode (body ++ [x2a]) 4
       = Ok (PtrAuthResponse {| AuthResponse_Token := None |}, [x2a]).
Proof.
  apply AuthResponseCodec_round_trip. exact I.
Defined.

Lemma WriteBytes_mirror (token : Bytes) (dest : list byte) :
  exists dest',
    WriteBytes token dest = Ok dest'
    /\ LengthOfBytes token = Z.of_nat (length dest') - Z.of_nat (length dest).
Proof.
  destruct (WriteBytes token dest) as [dest'| |] eqn:Hw;
    try (destruct token; discriminate Hw).
  exists dest'. split; [reflexivity|].
  apply WriteBytes_length in Hw. lia.
Qed.

(** X9: for each codec of package [message], [EncodedLength] mirrors
    [Encode]: it returns the same error or panics on the same messages,
    and on success its result is the number of bytes [Encode] appends. *)
Theorem message_codecs_predict_their_length :
  mirrors AuthChallengeCodec /\ mirrors AuthResponseCodec /\ mirrors ReadyCodec.
Proof.
  repeat split; intros msg dest v.
  - cbn [message.Encode message.EncodedLength AuthChallengeCodec].
    unfold AuthChallengeCodec_Encode, AuthChallengeCodec_EncodedLength.
    destruct (as_AuthChallenge msg) as [[token]|]; [|reflexivity].
    cbn [AuthChallenge_Token].
    destruct (WriteBytes_mirror token dest) as (dest' & -> & Hlen). now rewrite Hlen.
  - cbn [message.Encode message.EncodedLength AuthResponseCodec].
    unfold AuthResponseCodec_Encode, AuthResponseCodec_EncodedLength.
    destruct (as_AuthResponse msg) as [[token]|]; [|reflexivity].
    cbn [must bind AuthResponse_Token].
    destruct (WriteBytes_mirror token dest) as (dest' & -> & Hlen). now rewrite Hlen.
  - cbn [message.Encode message.EncodedLength ReadyCodec].
    unfold ReadyCodec_Encode, ReadyCodec_EncodedLength. f_equal. lia.
Qed.

(** A Ready message handed to the AUTH_RESPONSE codec. *)
Lemma AuthResponseCodec_panics_on_mismatch_witness :
  AuthResponseCodec_Encode PtrReady [] 4 = Panic
  /\ AuthResponseCodec_EncodedLength PtrReady 4 = Panic.
Proof.
  apply (AuthResponseCodec_panics_on_mismatch PtrReady [] 4).
  reflexivity.
Defined.

Lemma EventCodec_EncodedSize_plain_Event (e : Event) (v : Z) :
  EventCodec_EncodedSize (PtrEvent e) v
  = if (String.eqb (Type_ e) EventTypeSchemaChange
        || String.eqb (Type_ e) EventTypeStatusChange
        || String.eqb (Type_ e) EventTypeTopologyChange)%bool
    then Err TypeMismatch
    else Err UnknownVariant.
Proof.
  unfold EventCodec_EncodedSize. cbn [as_Event must bind as_SchemaChangeEvent
    as_StatusChangeEvent as_TopologyChangeEvent].
  destruct (String.eqb (Type_ e) EventTypeSchemaChange); [reflexivity|].
  destruct (String.eqb (Type_ e) EventTypeStatusChange); [reflexivity|].
  destruct (String.eqb (Type_ e) EventTypeTopologyChange); reflexivity.
Qed.

(** X11: [EventCodec.EncodedSize] returns a size for no message.  It
    panics at its first type assertion on every message whose dynamic
    type is not that of a plain [Event]; on a plain [Event] it returns an
    error: a type mismatch when the event type is one of the three known
    ones, the unknown-event-type error otherwise. *)
Theorem EventCodec_EncodedSize_never_returns_a_size :
  forall (msg : Message) (v : Z),
    is_ok (EventCodec_EncodedSize msg v) = false
    /\ match as_Event msg with
       | None => EventCodec_EncodedSize msg v = Panic
       | Some event =>
           EventCodec_EncodedSize msg v
           = if (String.eqb (Type_ event) EventTypeSchemaChange
                 || String.eqb (Type_ event) EventTypeStatusChange
                 || String.eqb (Type_ event) EventTypeTopologyChange)%bool
             then Err TypeMismatch
             else Err UnknownVariant
       end.
Proof.
  intros msg v.
  destruct msg as [m|m| |e|m|m|m|op r];
    try (rewrite EventCodec_EncodedSize_needs_plain_Event by reflexivity;
         split; reflexivity).
  cbn [as_Event]. rewrite EventCodec_EncodedSize_plain_Event.
  destruct (_ || _ || _)%bool; split; reflexivity.
Qed.

(** * Further properties of the event decoder *)

(** Every way [EventCodec.Decode] can succeed.  The event type is read
    from the start of [source] twice: once to dispatch, once more as the
    change type. *)
Lemma EventCodec_Decode_inv (source : list byte) (v : Z) (m : Message) :
  EventCodec_Decode source v = Ok m ->
  exists t r,
    ReadString source = Ok (t, r)
    /\ ((t = EventTypeSchemaChange
         /\ exists target keyspace object arguments,
             m = PtrSchemaChangeEvent
                   {| SchemaChangeEvent_Event := {| Type_ := t |};
                      SchemaChangeEvent_ChangeType := t;
                      SchemaChangeEvent_Target := target;
                      SchemaChangeEvent_Keyspace := keyspace;
                      SchemaChangeEvent_Object := object;
                      SchemaChangeEvent_Arguments := arguments |}
             /\ (target = SchemaChangeTargetKeyspace /\ object = "" /\ arguments = []
                 \/ is_object_target target = true /\ arguments = []
                 \/ is_signature_target target = true
                    /\ (v <? ProtocolVersion4) = false))
        \/ (t = EventTypeStatusChange
            /\ exists address,
                m = PtrStatusChangeEvent
                      {| StatusChangeEvent_Event := {| Type_ := t |};
                         StatusChangeEvent_ChangeType := t;
                         StatusChangeEvent_Address := address |})
        \/ (t = EventTypeTopologyChange
            /\ exists address,
                m = PtrTopologyChangeEvent
                      {| TopologyChangeEvent_Event := {| Type_ := t |};
                         TopologyChangeEvent_ChangeType := t;
                         TopologyChangeEvent_Address := address |})).
Proof.
  unfold EventCodec_Decode.
  destruct (ReadString source) as [[t r]| |] eqn:Hread;
    cbn [bind wrap]; try discriminate.
  intros H. exists t, r. split; [reflexivity|].
  destruct (String.eqb t EventTypeSchemaChange) eqn:Eschema.
  - left. split; [now apply String.eqb_eq|].
    destruct (ReadString r) as [[target r1]| |]; cbn [bind wrap] in H;
      try discriminate H.
    destruct (ReadString r1) as [[keyspace r2]| |]; cbn [bind wrap] in H;
      try discriminate H.
    destruct (String.eqb target SchemaChangeTargetKeyspace) eqn:Ekeyspace.
    + apply Ok_inj in H. subst m. apply String.eqb_eq in Ekeyspace.
      eexists _, _, _, _. split; [reflexivity|]. left. now repeat split.
    + destruct (is_object_target target) eqn:Eobject.
      * destruct (ReadString r2) as [[object r3]| |]; cbn [bind wrap] in H;
          try discriminate H.
        apply Ok_inj in H. subst m.
        eexists _, _, _, _. split; [reflexivity|]. right. left. now split.
      * destruct (is_signature_target target) eqn:Esignature; [|discriminate H].
        destruct (v <? ProtocolVersion4) eqn:Ev; [discriminate H|].
        destruct (ReadString r2) as [[object r3]| |]; cbn [bind wrap] in H;
          try discriminate H.
        destruct (ReadStringList r3) as [[arguments r4]| |]; cbn [bind wrap] in H;
          try discriminate H.
        apply Ok_inj in H. subst m.
        eexists _, _, _, _. split; [reflexivity|]. right. right. now split.
  - destruct (String.eqb t EventTypeStatusChange) eqn:Estatus.
    + right. left. split; [now apply String.eqb_eq|].
      destruct (ReadInet r) as [[address r1]| |]; cbn [bind wrap] in H;
        try discriminate H.
      apply Ok_inj in H. subst m. now eexists.
    + destruct (String.eqb t EventTypeTopologyChange) eqn:Etopology;
        [|discriminate H].
      right. right. split; [now apply String.eqb_eq|].
      destruct (ReadInet r) as [[address r1]| |]; cbn [bind wrap] in H;
        try discriminate H.
      apply Ok_inj in H. subst m. now eexists.
Qed.

(** X12: [EventCodec.Decode] dispatches on the first string of its
    input.  A message it returns is one of the three event variants,
    never a plain [Event] or a message of another kind, and carries that
    first string as its event type, which is the one of its variant.
    Input whose first string is none of the three event types is rejected
    with the unknown-event-type error, and input from which no first
    string can be read is rejected with the reader's error. *)
Theorem EventCodec_Decode_returns_matching_variant :
  forall (source : list byte) (v : Z),
    (forall m,
        EventCodec_Decode source v = Ok m ->
        exists t r,
          ReadString source = Ok (t, r)
          /\ match m with
             | PtrSchemaChangeEvent sce =>
                 Type_ (SchemaChangeEvent_Event sce) = t
                 /\ t = EventTypeSchemaChange
             | PtrStatusChangeEvent sce =>
                 Type_ (StatusChangeEvent_Event sce) = t
                 /\ t = EventTypeStatusChange
             | PtrTopologyChangeEvent tce =>
                 Type_ (TopologyChangeEvent_Event tce) = t
                 /\ t = EventTypeTopologyChange
             | _ => False
             end)
    /\ (forall t r,
          ReadString source = Ok (t, r) ->
          t <> EventTypeSchemaChange ->
          t <> EventTypeStatusChange ->
          t <> EventTypeTopologyChange ->
          EventCodec_Decode source v = Err UnknownVariant)
    /\ (forall e,
          ReadString source = Err e -> EventCodec_Decode source v = Err e).
Proof.
  intros source v. split; [|split].
  - intros m H.
    destruct (EventCodec_Decode_inv _ _ _ H) as (t & r & Hread & Hcases).
    exists t, r. split; [exact Hread|].
    destruct Hcases as [(Ht & tg & ks & ob & ar & -> & _)
                       | [(Ht & a & ->) | (Ht & a & ->)]];
      split; [reflexivity | exact Ht | reflexivity | exact Ht
             | reflexivity | exact Ht].
  - intros t r Hread H1 H2 H3. unfold EventCodec_Decode.
    rewrite Hread. cbn [bind wrap].
    apply String.eqb_neq in H1, H2, H3. now rewrite H1, H2, H3.
  - intros e Hread. unfold EventCodec_Decode. now rewrite Hread.
Qed.

Lemma EventCodec_Decode_returns_matching_variant_witness :
  (exists t r,
      ReadString function_changed_body = Ok (t, r)
      /\ Type_ (SchemaChangeEvent_Event
                  (schema_change "SCHEMA_CHANGE" "KEYSPACE" "FUNCTION" "" [])) = t
      /\ t = EventTypeSchemaChange)
  /\ EventCodec_Decode (string_bytes "FOO" ++ [x01]) 4 = Err UnknownVariant
  /\ EventCodec_Decode [x00] 4 = Err ShortRead.
Proof.
  split; [|split].
  - refine (proj1 (EventCodec_Decode_returns_matching_variant function_changed_body 3)
              (PtrSchemaChangeEvent
                 (schema_change "SCHEMA_CHANGE" "KEYSPACE" "FUNCTION" "" [])) _).
    vm_compute. reflexivity.
  - refine (proj1 (proj2 (EventCodec_Decode_returns_matching_variant
                            (string_bytes "FOO" ++ [x01]) 4)) "FOO" [x01] _ _ _ _);
      [vm_compute; reflexivity | discriminate | discriminate | discriminate].
  - refine (proj2 (proj2 (EventCodec_Decode_returns_matching_variant [x00] 4))
              ShortRead _).
    vm_compute. reflexivity.
Defined.

(** X13: in every message [EventCodec.Decode] returns, the change type is
    the event type itself: the decoder reads the first string of the body
    twice, once as the event type and once as the change type. *)
Theorem EventCodec_Decode_change_type_repeats_event_type :
  forall (source : list byte) (v : Z) (m : Message),
    EventCodec_Decode source v = Ok m ->
    match m with
    | PtrSchemaChangeEvent sce =>
        SchemaChangeEvent_ChangeType sce = Type_ (SchemaChangeEvent_Event sce)
    | PtrStatusChangeEvent sce =>
        StatusChangeEvent_ChangeType sce = Type_ (StatusChangeEvent_Event sce)
    | PtrTopologyChangeEvent tce =>
        TopologyChangeEvent_ChangeType tce = Type_ (TopologyChangeEvent_Event tce)
    | _ => False
    end.
Proof.
  intros source v m H.
  destruct (EventCodec_Decode_inv _ _ _ H) as (t & r & _ & Hcases).
  destruct Hcases as [(Ht & tg & ks & ob & ar & -> & _)
                     | [(Ht & a & ->) | (Ht & a & ->)]]; reflexivity.
Qed.

Lemma EventCodec_Decode_change_type_repeats_event_type_witness :
  SchemaChangeEvent_ChangeType
    (schema_change "SCHEMA_CHANGE" "KEYSPACE" "FUNCTION" "" [])
  = Type_ (SchemaChangeEvent_Event
             (schema_change "SCHEMA_CHANGE" "KEYSPACE" "FUNCTION" "" [])).
Proof.
  refine (EventCodec_Decode_change_type_repeats_event_type function_changed_body 3
            (PtrSchemaChangeEvent
               (schema_change "SCHEMA_CHANGE" "KEYSPACE" "FUNCTION" "" [])) _).
  vm_compute. reflexivity.
Defined.

Lemma is_object_target_cases (target : string) :
  is_object_target target = true ->
  target = SchemaChangeTargetTable \/ target = SchemaChangeTargetType.
Proof.
  unfold is_object_target. intros H. apply orb_true_iff in H.
  destruct H as [H | H]; apply String.eqb_eq in H; auto.
Qed.

Lemma is_signature_target_cases (target : string) :
  is_signature_target target = true ->
  target = SchemaChangeTargetAggregate \/ target = SchemaChangeTargetFunction.
Proof.
  unfold is_signature_target. intros H. apply orb_true_iff in H.
  destruct H as [H | H]; apply String.eqb_eq in H; auto.
Qed.

(** X14: a schema change returned by [EventCodec.Decode] has one of the
    five known targets, and its fields follow the target: no object and
    no arguments for KEYSPACE, no arguments for TABLE and TYPE, and
    AGGREGATE or FUNCTION only from protocol version 4 on. *)
Theorem EventCodec_Decode_schema_change_shape :
  forall (source : list byte) (v : Z) (sce : SchemaChangeEvent),
    EventCodec_Decode source v = Ok (PtrSchemaChangeEvent sce) ->
    (SchemaChangeEvent_Target sce = SchemaChangeTargetKeyspace
     /\ SchemaChangeEvent_Object sce = ""
     /\ SchemaChangeEvent_Arguments sce = [])
    \/ ((SchemaChangeEvent_Target sce = SchemaChangeTargetTable
         \/ SchemaChangeEvent_Target sce = SchemaChangeTargetType)
        /\ SchemaChangeEvent_Arguments sce = [])
    \/ ((SchemaChangeEvent_Target sce = SchemaChangeTargetAggregate
         \/ SchemaChangeEvent_Target sce = SchemaChangeTargetFunction)
        /\ ProtocolVersion4 <= v).
Proof.
  intros source v sce H.
  destruct (EventCodec_Decode_inv _ _ _ H) as (t & r & _ & Hcases).
  destruct Hcases as [(Ht & tg & ks & ob & ar & Hm & Hshape)
                     | [(Ht & a & Hm) | (Ht & a & Hm)]]; try discriminate Hm.
  injection Hm as ->. cbn [SchemaChangeEvent_Target SchemaChangeEvent_Object
    SchemaChangeEvent_Arguments].
  destruct Hshape as [(-> & -> & ->) | [(Hobj & ->) | (Hsig & Hv)]].
  - left. now repeat split.
  - right. left. split; [now apply is_object_target_cases | reflexivity].
  - right. right. split; [now apply is_signature_target_cases|].
    now apply Z.ltb_ge.
Qed.

Lemma EventCodec_Decode_schema_change_shape_witness :
  ("KEYSPACE" = SchemaChangeTargetKeyspace
   /\ "" = ""
   /\ @nil string = [])
  \/ (("KEYSPACE" = SchemaChangeTargetTable \/ "KEYSPACE" = SchemaChangeTargetType)
      /\ @nil string = [])
  \/ (("KEYSPACE" = SchemaChangeTargetAggregate
       \/ "KEYSPACE" = SchemaChangeTargetFunction)
      /\ ProtocolVersion4 <= 3).
Proof.
  refine (EventCodec_Decode_schema_change_shape function_changed_body 3
            (schema_change "SCHEMA_CHANGE" "KEYSPACE" "FUNCTION" "" []) _).
  vm_compute. reflexivity.
Defined.

(** X15: decoding and encoding do not compose in the event codec: every
    message [Decode] returns makes [Encode] and [EncodedSize] panic. *)
Theorem EventCodec_decoded_message_is_not_encodable :
  forall (source : list byte) (v : Z) (m : Message),
    EventCodec_Decode source v = Ok m ->
    forall (dest : list byte) (v' : Z),
      EventCodec_Encode m dest v' = Panic
      /\ EventCodec_EncodedSize m v' = Panic.
Proof.
  intros source v m H dest v'.
  destruct (EventCodec_Decode_inv _ _ _ H) as (t & r & _ & Hcases).
  destruct Hcases as [(Ht & tg & ks & ob & ar & -> & _)
                     | [(Ht & a & ->) | (Ht & a & ->)]];
    split; reflexivity.
Qed.

Lemma EventCodec_decoded_message_is_not_encodable_witness :
  EventCodec_Encode
    (PtrSchemaChangeEvent (schema_change "SCHEMA_CHANGE" "KEYSPACE" "FUNCTION" "" []))
    [] 4 = Panic
  /\ EventCodec_EncodedSize
       (PtrSchemaChangeEvent (schema_change "SCHEMA_CHANGE" "KEYSPACE" "FUNCTION" "" []))
       4 = Panic.
Proof.
  apply (EventCodec_decoded_message_is_not_encodable function_changed_body 3).
  vm_compute. reflexivity.
Defined.

(** X16: each decoder of package [message] returns messages that carry
    the opcode of its codec and that the encoder of the same codec
    accepts. *)
Theorem decoded_messages_suit_their_codec :
  decodes_for AuthChallengeCodec_Decode AuthChallengeCodec AuthChallengeCodec_GetOpCode
  /\ decodes_for AuthResponseCodec_Decode AuthResponseCodec AuthResponseCodec_GetOpCode
  /\ decodes_for ReadyCodec_Decode ReadyCodec ReadyCodec_GetOpCode.
Proof.
  split; [|split]; intros source v m rest H.
  - unfold AuthChallengeCodec_Decode in H.
    destruct (ReadBytes source) as [[token r]| |]; cbn [bind] in H;
      try discriminate H.
    apply Ok_inj in H. injection H as <- _.
    split; [reflexivity|]. intros dest v'. destruct token; reflexivity.
  - unfold AuthResponseCodec_Decode in H.
    destruct (ReadBytes source) as [[token r]| |]; cbn [bind] in H;
      try discriminate H.
    apply Ok_inj in H. injection H as <- _.
    split; [reflexivity|]. intros dest v'. destruct token; reflexivity.
  - unfold ReadyCodec_Decode in H. apply Ok_inj in H. injection H as <- _.
    split; [reflexivity|]. intros dest v'. reflexivity.
Qed.

Lemma decoded_messages_suit_their_codec_witness :
  GetOpCode challenge = AuthChallengeCodec_GetOpCode
  /\ forall dest v', is_ok (message.Encode AuthChallengeCodec challenge dest v') = true.
Proof.
  apply (proj1 decoded_messages_suit_their_codec
           [x00; x00; x00; x03; x01; x02; x03] 4 challenge []).
  vm_compute. reflexivity.
Defined.

(** The direction bit of an encoded AUTH_CHALLENGE header. *)
Lemma encodeHeader_direction_bit_iff_witness :
  exists b0 rest,
    encodeHeader plain_codec (bare_frame challenge) 7 [] = Ok (b0 :: rest)
    /\ (Z.testbit (Z_of_byte b0) 7 = true
        <-> IsResponse (Message_ (Body_ (bare_frame challenge))) = true).
Proof.
  apply (encodeHeader_direction_bit_iff plain_codec (bare_frame challenge) 7).
  cbn. lia.
Defined.

(** * Failures of the length predictor *)

(** X17: when the codec registered for the opcode cannot compute the
    length of the message, no frame is produced on either path, the
    compressed one included although it does not use the length: past the
    version gate the encoder returns the codec's error inside two layers
    of context. *)
Theorem Encode_fails_when_length_fails :
  forall (c : Codec) (frame : Frame) (enc : Encoder) (e : error),
    codecs c !! GetOpCode (Message_ (Body_ frame)) = Some enc ->
    message.EncodedLength enc (Message_ (Body_ frame)) (Version (Header_ frame)) = Err e ->
    Encode c frame = Err VersionFeatureMismatch
    \/ Encode c frame
       = Err (Wrap "cannot compute length of uncompressed message body"
                (Wrap "cannot compute message length" e)).
Proof.
  intros c frame enc e Henc He. unfold Encode.
  destruct (_ && _)%bool; [now left|].
  destruct (_ && _)%bool; [now left|].
  right.
  assert (Hn : uncompressedBodyLength c frame
               = Err (Wrap "cannot compute message length" e)).
  { unfold uncompressedBodyLength, findEncoder. rewrite Henc. cbn [bind].
    rewrite He. reflexivity. }
  destruct (shouldCompress c frame);
    unfold encodeFrameCompressed, encodeFrameUncompressed;
    rewrite Hn; reflexivity.
Qed.

(** The AUTH_CHALLENGE codec registered under the READY opcode refuses a
    Ready message. *)
Lemma Encode_fails_when_length_fails_witness :
  Encode {| codecs := <[OpCodeReady := AuthChallengeCodec]> registry;
            compressor := Some storing_compressor |} ready_frame
  = Err VersionFeatureMismatch
  \/ Encode {| codecs := <[OpCodeReady := AuthChallengeCodec]> registry;
               compressor := Some storing_compressor |} ready_frame
     = Err (Wrap "cannot compute length of uncompressed message body"
              (Wrap "cannot compute message length" TypeMismatch)).
Proof.
  apply (Encode_fails_when_length_fails _ ready_frame AuthChallengeCodec TypeMismatch).
  - vm_compute. reflexivity.
  - reflexivity.
Defined.

(** * The tracing id in the body *)

Lemma encodeBodyUncompressed_appends (c : Codec) (frame : Frame) (dest out : list byte) :
  (forall opCode enc, codecs c !! opCode = Some enc -> appends enc) ->
  encodeBodyUncompressed c frame dest = Ok out ->
  exists body, out = (dest ++ body_prefix frame) ++ body.
Proof.
  intros Happ He. rewrite encodeBodyUncompressed_prefix in He.
  unfold findEncoder in He.
  destruct (codecs c !! GetOpCode (Message_ (Body_ frame))) as [enc|] eqn:Henc;
    cbn [bind] in He; [|discriminate He].
  apply wrap_Ok in He. exact (Happ _ _ Henc _ _ _ _ He).
Qed.

Lemma plain_codec_writes_token (frame : Frame) (token : Bytes) (dest : list byte) :
  Message_ (Body_ frame) = PtrAuthChallenge {| AuthChallenge_Token := token |}
  \/ Message_ (Body_ frame) = PtrAuthResponse {| AuthResponse_Token := token |} ->
  encodeBodyUncompressed plain_codec frame dest
  = WriteBytes token (dest ++ body_prefix frame).
Proof.
  intros Hmsg. rewrite encodeBodyUncompressed_prefix. unfold findEncoder.
  destruct Hmsg as [-> | ->].
  - change (codecs plain_codec !! GetOpCode (PtrAuthChallenge {| AuthChallenge_Token := token |}))
      with (registry !! OpCodeAuthChallenge).
    replace (registry !! OpCodeAuthChallenge) with (Some AuthChallengeCodec)
      by (vm_compute; reflexivity).
    cbn [bind message.Encode AuthChallengeCodec].
    unfold AuthChallengeCodec_Encode. cbn [as_AuthChallenge AuthChallenge_Token].
    destruct token; reflexivity.
  - change (codecs plain_codec !! GetOpCode (PtrAuthResponse {| AuthResponse_Token := token |}))
      with (registry !! OpCodeAuthResponse).
    replace (registry !! OpCodeAuthResponse) with (Some AuthResponseCodec)
      by (vm_compute; reflexivity).
    cbn [bind message.Encode AuthResponseCodec].
    unfold AuthResponseCodec_Encode. cbn [as_AuthResponse must bind AuthResponse_Token].
    destruct token; reflexivity.
Qed.

(** C7: the 16 bytes of the tracing id are written in front of the body
    if and only if the message is a response and the tracing id is
    present.

    For every codec whose encoders only append, every frame and every
    destination, a body that is written successfully falls under one of
    two cases.  Either the message is a response with a tracing id [u]:
    then the output is the destination, the 16 bytes that [WriteUuid]
    writes for [u], and the rest, the rest being what the frame without
    its tracing id writes behind these bytes.  Or the message is a
    request or there is no tracing id: then the output is exactly that of
    the frame without its tracing id, so no byte of the uuid is in it.

    Both cases occur: with the codecs of package [message], for every
    uuid, token and destination, the AUTH_CHALLENGE response with a
    tracing id is written as the destination, the uuid bytes and the
    token, and the AUTH_RESPONSE request with the same tracing id and
    token as the destination and the token alone. *)
Theorem tracing_id_written_iff_response :
  (forall (c : Codec) (frame : Frame) (dest out : list byte),
      (forall opCode enc, codecs c !! opCode = Some enc -> appends enc) ->
      encodeBodyUncompressed c frame dest = Ok out ->
      (IsResponse (Message_ (Body_ frame)) = true
       /\ exists u uuid rest,
           TracingId (Body_ frame) = Some u
           /\ WriteUuid u dest = Ok (dest ++ uuid)
           /\ length uuid = 16%nat
           /\ out = dest ++ uuid ++ rest
           /\ encodeBodyUncompressed c (without_tracing frame) (dest ++ uuid) = Ok out)
      \/ ((IsResponse (Message_ (Body_ frame)) = false
           \/ TracingId (Body_ frame) = None)
          /\ encodeBodyUncompressed c (without_tracing frame) dest = Ok out
          /\ exists rest, out = dest ++ rest))
  /\ (forall (u : UUID) (token : Bytes) (dest : list byte),
        exists uuid body,
          WriteUuid u [] = Ok uuid
          /\ length uuid = 16%nat
          /\ WriteBytes token [] = Ok body
          /\ encodeBodyUncompressed plain_codec
               (traced_frame u (PtrAuthChallenge {| AuthChallenge_Token := token |})) dest
             = Ok (dest ++ uuid ++ body)
          /\ encodeBodyUncompressed plain_codec
               (traced_frame u (PtrAuthResponse {| AuthResponse_Token := token |})) dest
             = Ok (dest ++ body)).
Proof.
  split.
  - intros c frame dest out Happ He.
    destruct (encodeBodyUncompressed_appends c frame dest out Happ He) as [body Hout].
    assert (Heq := encodeBodyUncompressed_tracing c frame dest).
    rewrite He in Heq. symmetry in Heq.
    unfold body_prefix in Hout. unfold tracing_prefix in Hout, Heq.
    destruct (TracingId (Body_ frame)) as [u|] eqn:Hid;
      [destruct (IsResponse (Message_ (Body_ frame))) eqn:Hresp|].
    + left. split; [reflexivity|].
      exists u, (be_bytes 16 u), (payload_bytes frame ++ warnings_bytes frame ++ body).
      split; [reflexivity|]. split; [reflexivity|].
      split; [apply length_be_bytes|]. split; [|exact Heq].
      rewrite Hout. now rewrite <- !app_assoc.
    + right. rewrite app_nil_r in Heq. split; [now left|]. split; [exact Heq|].
      exists (payload_bytes frame ++ warnings_bytes frame ++ body).
      rewrite Hout. cbn [app]. now rewrite <- !app_assoc.
    + right. rewrite app_nil_r in Heq. split; [now right|]. split; [exact Heq|].
      exists (payload_bytes frame ++ warnings_bytes frame ++ body).
      rewrite Hout. cbn [app]. now rewrite <- !app_assoc.
  - intros u token dest.
    exists (be_bytes 16 u),
      (match token with
       | Some l => be_bytes 4 (Z.of_nat (length l)) ++ l
       | None => be_bytes 4 (-1)
       end).
    split; [reflexivity|]. split; [apply length_be_bytes|].
    split; [destruct token; reflexivity|]. split.
    + rewrite (plain_codec_writes_token _ token) by (left; reflexivity).
      unfold body_prefix, tracing_prefix, payload_bytes, warnings_bytes.
      cbn [traced_frame Body_ TracingId CustomPayload Warnings Message_ IsResponse].
      rewrite !app_nil_r. destruct token; cbn [WriteBytes]; now rewrite <- ?app_assoc.
    + rewrite (plain_codec_writes_token _ token) by (right; reflexivity).
      unfold body_prefix, tracing_prefix, payload_bytes, warnings_bytes.
      cbn [traced_frame Body_ TracingId CustomPayload Warnings Message_ IsResponse].
      rewrite !app_nil_r. destruct token; cbn [WriteBytes]; reflexivity.
Qed.

(** The AUTH_CHALLENGE response of the scenarios with a tracing id,
    written behind one byte: the uuid follows that byte. *)
Lemma tracing_id_written_iff_response_witness :
  (IsResponse challenge = true
   /\ exists u uuid rest,
       Some 1 = Some u
       /\ WriteUuid u [x2a] = Ok ([x2a] ++ uuid)
       /\ length uuid = 16%nat
       /\ [x2a; x00; x00; x00; x00; x00; x00; x00; x00; x00; x00; x00; x00; x00;
           x00; x00; x01; x00; x00; x00; x03; x01; x02; x03]
          = [x2a] ++ uuid ++ rest
       /\ encodeBodyUncompressed plain_codec
            (without_tracing (traced_frame 1 challenge)) ([x2a] ++ uuid)
          = Ok [x2a; x00; x00; x00; x00; x00; x00; x00; x00; x00; x00; x00; x00;
                x00; x00; x00; x01; x00; x00; x00; x03; x01; x02; x03])
  \/ ((IsResponse challenge = false \/ Some 1 = @None UUID)
      /\ encodeBodyUncompressed plain_codec
           (without_tracing (traced_frame 1 challenge)) [x2a]
         = Ok [x2a; x00; x00; x00; x00; x00; x00; x00; x00; x00; x00; x00; x00;
               x00; x00; x00; x01; x00; x00; x00; x03; x01; x02; x03]
      /\ exists rest,
          [x2a; x00; x00; x00; x00; x00; x00; x00; x00; x00; x00; x00; x00; x00;
           x00; x00; x01; x00; x00; x00; x03; x01; x02; x03]
          = [x2a] ++ rest).
Proof.
  apply (proj1 tracing_id_written_iff_response plain_codec
           (traced_frame 1 challenge) [x2a]).
  - intros opCode enc H. exact (proj2 (registry_well_behaved opCode enc H)).
  - vm_compute. reflexivity.
Defined.
